(** * The OG-banner size-reduction pipeline (scripts/compress_og_banner.py)

    A shallow embedding of [compress_image] and [main] over an explicit
    model of what the script touches: the file system (a finite map from
    paths to file contents), Pillow (an interface of decode, encode,
    composite and resample operations), pathlib ([with_suffix]) and the two
    floating-point computations of the script ([st_size / 1024] and
    [int(size * 0.8)]), with their rounding written out.

    Effects are threaded through a state-and-exception monad: a Python
    exception leaves the world as it was when it was raised.  A file is
    decoded from the bytes it holds when it is opened (the open handle
    outlives the rename that follows), a rename replaces what was at the
    destination, and the progress lines printed on standard output are left
    out; the traceback of [main] is an event of the trace. *)

From Stdlib Require Import ZArith QArith Lia Ascii String List Bool.
From Stdlib.Strings Require Import Byte.
From stdpp Require Import gmap strings list fin_maps.

Local Open Scope Z_scope.

(** ** Floats (IEEE 754 binary64, round to nearest, ties to even) *)

Module Float.

(** Rounding of a non-negative integer to 53 significant bits. *)
Definition round_pos (n : Z) : Z :=
  if n <? 2 ^ 53 then n
  else
    let e := Z.log2 n - 52 in
    let q := n / 2 ^ e in
    let r := n mod 2 ^ e in
    let half := 2 ^ (e - 1) in
    let q' := if (half <? r) || ((r =? half) && Z.odd q) then q + 1 else q in
    q' * 2 ^ e.

(** [float(n)] for a Python int, as the integer it denotes. *)
Definition round53 (n : Z) : Z :=
  if n <? 0 then - round_pos (- n) else round_pos n.

(** [n / 1024] on Python ints (true division): the correctly rounded
    quotient.  Dividing by a power of two only moves the exponent, so the
    result is [round53 n] over 1024. *)
Definition truediv_1024 (n : Z) : Q := Qmake (round53 n) 1024.

(** [x < k] for a float [x] and a Python int [k]: Python compares the two
    exactly. *)
Definition lt_int (x : Q) (k : Z) : bool := Qnum x <? k * Zpos (Qden x).

(** The double nearest to 0.8 is [scale_num / 2^52] (0x3FE999999999999A). *)
Definition scale_num : Z := 3602879701896397.

(** [int(n * 0.8)]: the int is converted to a float, the product is
    rounded, and [int()] truncates towards zero. *)
Definition int_mul_scale (n : Z) : Z :=
  Z.quot (round53 (round53 n * scale_num)) (2 ^ 52).

End Float.

(** ** pathlib (as of Python 3.14, the interpreter the script names) *)

(** A path is the list of its components ([PurePath.parts] below the
    anchor); components never contain the separator. *)
Abbreviation Path := (list string).

Module Pathlib.

(** [s.rfind(c)] *)
Fixpoint rfind (c : ascii) (s : string) : option nat :=
  match s with
  | EmptyString => None
  | String a s' =>
      match rfind c s' with
      | Some i => Some (S i)
      | None => if Ascii.eqb a c then Some 0%nat else None
      end
  end.

(** [s.lstrip(c)] *)
Fixpoint lstrip (c : ascii) (s : string) : string :=
  match s with
  | EmptyString => EmptyString
  | String a s' => if Ascii.eqb a c then lstrip c s' else s
  end.

(** [PurePath.name]: the final component, [''] when there is none. *)
Definition name (p : Path) : string := List.last p EmptyString.

(** [PurePath.stem]: the name minus its last suffix; the stem keeps at
    least one character that is not a dot. *)
Definition stem_of (nm : string) : string :=
  match rfind "." nm with
  | Some i =>
      let st := substring 0 i nm in
      match lstrip "." st with
      | EmptyString => nm
      | _ => st
      end
  | None => nm
  end.

(** [PurePath.suffix] *)
Definition suffix_of (nm : string) : string :=
  let n := lstrip "." nm in
  match rfind "." n with
  | Some i => substring i (String.length n - i) n
  | None => EmptyString
  end.

Definition stem (p : Path) : string := stem_of (name p).
Definition suffix (p : Path) : string := suffix_of (name p).

Definition startswith_dot (s : string) : bool :=
  match s with
  | String a _ => Ascii.eqb a "."
  | EmptyString => false
  end.

(** [PurePath.with_name]; [None] stands for [ValueError].  The test for a
    separator inside the new name is left out: the names built here are a
    component of the path followed by a literal suffix. *)
Definition with_name (p : Path) (nm : string) : option Path :=
  if String.eqb nm EmptyString || String.eqb nm "." then None
  else
    match p with
    | [] => None
    | _ => Some (removelast p ++ [nm])
    end.

(** [PurePath.with_suffix]; [None] stands for [ValueError]. *)
Definition with_suffix (p : Path) (sfx : string) : option Path :=
  let st := stem p in
  if String.eqb st EmptyString then None
  else if negb (String.eqb sfx EmptyString) && negb (startswith_dot sfx)
  then None
  else with_name p (String.append st sfx).

End Pathlib.

(** ** Pillow *)

(** An image: its mode string, its (width, height) and its pixel buffer. *)
Record Image := mkImage {
  mode : string;
  size : Z * Z;
  im : list byte
}.

(** The keyword arguments of [Image.save] the script uses. *)
Inductive SaveParams :=
| PNG (optimize : bool) (compress_level : Z)
| JPEG (quality : Z) (optimize : bool).

Inductive Resampling := LANCZOS.

Inductive Exn :=
| FileNotFoundError (p : Path)
| UnidentifiedImageError (p : Path)
| ValueError
| IndexError
| OSError.

(** The encoder either yields the bytes of the file, or raises and leaves
    [partial] bytes in a file it did not create. *)
Inductive Encoded :=
| Written (b : list byte)
| Failed (e : Exn) (partial : list byte).

(** The operations of Pillow the script calls.  Their code is not part of
    the repository, so the pipeline is verified for every implementation of
    this interface. *)
Class PIL := {
  (** decoding of a file's bytes ([Image.open] and the lazy load) *)
  decode : list byte -> option Image;
  (** the format plugins behind [Image.save] *)
  encode : SaveParams -> Image -> Encoded;
  (** the buffer of [Image.new(mode, size, color)] *)
  fill : string -> Z * Z -> Z * Z * Z -> list byte;
  (** the buffer of band [i] ([Image.split]) *)
  getband : Image -> nat -> list byte;
  (** the buffer after [dst.paste(src, mask=mask)] *)
  blend : Image -> Image -> Image -> list byte;
  (** the buffer of [img.resize(size, filter)], or the exception it raises *)
  resample : Image -> Z * Z -> Resampling -> Exn + list byte
}.

(** Number of bands of a mode ([Image.getbands]). *)
Definition nbands (m : string) : nat :=
  if String.eqb m "RGBA" || String.eqb m "CMYK" || String.eqb m "RGBX"
     || String.eqb m "RGBa" then 4
  else if String.eqb m "RGB" || String.eqb m "YCbCr" || String.eqb m "LAB"
          || String.eqb m "HSV" then 3
  else if String.eqb m "LA" || String.eqb m "PA" || String.eqb m "La" then 2
  else 1.

(** Modes that carry an alpha band. *)
Definition has_alpha (m : string) : bool :=
  String.eqb m "RGBA" || String.eqb m "LA" || String.eqb m "PA"
  || String.eqb m "RGBa" || String.eqb m "La".

Section Pillow.
Context `{PIL}.

(** [Image.new(mode, size, color)] *)
Definition Image_new (m : string) (sz : Z * Z) (color : Z * Z * Z) : Image :=
  {| mode := m; size := sz; im := fill m sz color |}.

(** [img.split()]: one single-band image per band. *)
Definition Image_split (img : Image) : list Image :=
  map (fun i => {| mode := "L"; size := size img; im := getband img i |})
      (seq 0 (nbands (mode img))).

(** [dst.paste(src, mask=mask)]: [dst] keeps its mode and size. *)
Definition Image_paste (dst src mask : Image) : Image :=
  {| mode := mode dst; size := size dst; im := blend dst src mask |}.

(** [img.resize(size, filter)]: the result has the size asked for. *)
Definition Image_resize (img : Image) (sz : Z * Z) (f : Resampling)
  : Exn + Image :=
  match resample img sz f with
  | inl e => inl e
  | inr d => inr {| mode := mode img; size := sz; im := d |}
  end.

End Pillow.

(** ** The world: files and a trace of what was done to them *)

Inductive Event :=
| EvOpen (p : Path) (b : list byte)
| EvRename (src dst : Path)
| EvSave (p : Path) (params : SaveParams) (img : Image)
| EvUnlink (p : Path)
| EvTraceback (e : Exn).

Record World := mkWorld {
  files : gmap Path (list byte);
  trace : list Event
}.

Definition record (ev : Event) (w : World) : World :=
  {| files := files w; trace := trace w ++ [ev] |}.

Definition set_files (fs : gmap Path (list byte)) (w : World) : World :=
  {| files := fs; trace := trace w |}.

(** ** State and exceptions *)

Inductive Res (A : Type) :=
| Ok (a : A)
| Raise (e : Exn).
Arguments Ok {A} a.
Arguments Raise {A} e.

Definition M (A : Type) : Type := World -> Res A * World.

Definition ret {A} (a : A) : M A := fun w => (Ok a, w).

Definition raise {A} (e : Exn) : M A := fun w => (Raise e, w).

Definition bind {A B} (m : M A) (k : A -> M B) : M B :=
  fun w =>
    match m w with
    | (Ok a, w') => k a w'
    | (Raise e, w') => (Raise e, w')
    end.

(** [try: m except Exception as e: h e] *)
Definition try_except {A} (m : M A) (h : Exn -> M A) : M A :=
  fun w =>
    match m w with
    | (Ok a, w') => (Ok a, w')
    | (Raise e, w') => h e w'
    end.

Declare Scope py_scope.
Delimit Scope py_scope with py.
Notation "'let*' x ':=' m 'in' k" := (bind m (fun x => k))
  (at level 10, x pattern, m at level 100, k at level 200) : py_scope.
Notation "m ';;;' k" := (bind m (fun _ => k))
  (at level 100, k at level 200, right associativity) : py_scope.
Local Open Scope py_scope.

(** ** File-system and Pillow calls *)

Section Calls.
Context `{PIL}.

(** [p.exists()] *)
Definition Path_exists (p : Path) : M bool :=
  fun w => (Ok (bool_decide (is_Some (files w !! p))), w).

(** [p.stat().st_size] *)
Definition st_size (p : Path) : M Z :=
  fun w =>
    match files w !! p with
    | Some b => (Ok (Z.of_nat (length b)), w)
    | None => (Raise (FileNotFoundError p), w)
    end.

(** [src.rename(dst)]: the file moves, replacing what was at [dst]. *)
Definition Path_rename (src dst : Path) : M unit :=
  fun w =>
    match files w !! src with
    | Some b =>
        (Ok tt, record (EvRename src dst)
                  (set_files (<[dst := b]> (delete src (files w))) w))
    | None => (Raise (FileNotFoundError src), w)
    end.

(** [p.unlink()] *)
Definition Path_unlink (p : Path) : M unit :=
  fun w =>
    match files w !! p with
    | Some _ =>
        (Ok tt, record (EvUnlink p) (set_files (delete p (files w)) w))
    | None => (Raise (FileNotFoundError p), w)
    end.

(** [p.with_suffix(sfx)] *)
Definition Path_with_suffix (p : Path) (sfx : string) : M Path :=
  match Pathlib.with_suffix p sfx with
  | Some q => ret q
  | None => raise ValueError
  end.

(** [Image.open(p)] *)
Definition Image_open (p : Path) : M Image :=
  fun w =>
    match files w !! p with
    | Some b =>
        match decode b with
        | Some img => (Ok img, record (EvOpen p b) w)
        | None => (Raise (UnidentifiedImageError p), w)
        end
    | None => (Raise (FileNotFoundError p), w)
    end.

(** [img.save(p, **params)]: on success the file holds the encoding; on
    failure a file that [save] created is removed again, and a file that
    was there before keeps the partial output. *)
Definition Image_save (img : Image) (p : Path) (params : SaveParams)
  : M unit :=
  fun w =>
    let w1 := record (EvSave p params img) w in
    match encode params img with
    | Written b => (Ok tt, set_files (<[p := b]> (files w)) w1)
    | Failed e partial =>
        match files w !! p with
        | Some _ => (Raise e, set_files (<[p := partial]> (files w)) w1)
        | None => (Raise e, w1)
        end
    end.

(** [traceback.print_exc()] *)
Definition print_exc (e : Exn) : M unit :=
  fun w => (Ok tt, record (EvTraceback e) w).

(** Lines 27-31 and 67-70: the image as it is after
    [if img.mode == 'RGBA': ...]. *)
Definition flatten (img : Image) : Res Image :=
  if String.eqb (mode img) "RGBA" then
    let rgb_img := Image_new "RGB" (size img) (255, 255, 255) in
    match Image_split img !! 3%nat with
    | Some alpha => Ok (Image_paste rgb_img img alpha)
    | None => Raise IndexError
    end
  else Ok img.

Definition lift {A} (r : Res A) : M A := fun w => (r, w).

(** [p.stat().st_size / 1024] *)
Definition size_kb (p : Path) : M Q :=
  let* n := st_size p in ret (Float.truediv_1024 n).

(** The body of [for quality in qs:]; [Some r] when the loop returned [r],
    [None] when it ran to its end. *)
Fixpoint quality_loop (img : Image) (input_path backup_path : Path)
    (max_size_kb : Z) (qs : list Z) : M (option (Path * Q)) :=
  match qs with
  | [] => ret None
  | quality :: qs' =>
      Image_save img input_path (JPEG quality true) ;;;
      let* jpeg_size := size_kb input_path in
      if Float.lt_int jpeg_size max_size_kb then
        Path_unlink backup_path ;;;
        ret (Some (input_path, jpeg_size))
      else quality_loop img input_path backup_path max_size_kb qs'
  end.

Definition qualities : list Z := [95; 85; 75; 65; 55; 45].

Definition compress_image (input_path : Path) (max_size_kb : Z)
  : M (Path * Q) :=
  let* img := Image_open input_path in
  let* original_size := size_kb input_path in
  let* img := lift (flatten img) in
  let* backup_path := Path_with_suffix input_path ".backup.png" in
  Path_rename input_path backup_path ;;;
  Image_save img input_path (PNG true 9) ;;;
  let* png_size := size_kb input_path in
  if Float.lt_int png_size max_size_kb then
    Path_unlink backup_path ;;;
    ret (input_path, png_size)
  else
    let* r := quality_loop img input_path backup_path max_size_kb qualities in
    match r with
    | Some out => ret out
    | None =>
        let* img := Image_open backup_path in
        let* img := lift (flatten img) in
        let new_width := Float.int_mul_scale (fst (size img)) in
        let new_height := Float.int_mul_scale (snd (size img)) in
        match Image_resize img (new_width, new_height) LANCZOS with
        | inl e => raise e
        | inr img_resized =>
            Image_save img_resized input_path (JPEG 85 true) ;;;
            let* final_size := size_kb input_path in
            Path_unlink backup_path ;;;
            ret (input_path, final_size)
        end
    end.

(** [main], for the banner path it computes from the script's location;
    its result is the status [exit] is called with. *)
Definition main (banner_path : Path) : M Z :=
  let* found := Path_exists banner_path in
  if negb found then ret 1
  else
    try_except
      (let* r := compress_image banner_path 300 in
       ret 0)
      (fun e => print_exc e ;;; ret 1).

End Calls.

(** ** A small implementation of the Pillow interface

    Files are a four-byte header (format, mode, width, height) followed by
    the payload.  The PNG payload is the planar pixel buffer itself; the
    JPEG payload keeps the first [quality] percent of it and decoding pads
    the rest with zeros, so that lower qualities give smaller files and the
    loss is real.  JPEG refuses modes with an alpha band, as Pillow does. *)

Module Toy.

Definition mode_tag (m : string) : byte :=
  if String.eqb m "RGB" then x00
  else if String.eqb m "RGBA" then x01
  else if String.eqb m "LA" then x02
  else x03.

Definition tag_mode (t : byte) : string :=
  match t with
  | x00 => "RGB"
  | x01 => "RGBA"
  | x02 => "LA"
  | _ => "L"
  end.

Definition byte_of_Z (z : Z) : byte :=
  match Byte.of_N (Z.to_N z) with
  | Some b => b
  | None => xff
  end.

Definition Z_of_byte (b : byte) : Z := Z.of_N (Byte.to_N b).

Definition area (sz : Z * Z) : nat := Z.to_nat (fst sz * snd sz).

Definition buflen (m : string) (sz : Z * Z) : nat := (area sz * nbands m)%nat.

Definition pad (n : nat) (d : list byte) : list byte :=
  firstn n (d ++ repeat x00 n).

Definition header (fmt : byte) (img : Image) : list byte :=
  [fmt; mode_tag (mode img); byte_of_Z (fst (size img));
   byte_of_Z (snd (size img))].

Definition toy_decode (b : list byte) : option Image :=
  match b with
  | fmt :: m :: w :: h :: payload =>
      let sz := (Z_of_byte w, Z_of_byte h) in
      let md := tag_mode m in
      match fmt with
      | "P"%byte => Some {| mode := md; size := sz; im := payload |}
      | "J"%byte =>
          Some {| mode := md; size := sz; im := pad (buflen md sz) payload |}
      | _ => None
      end
  | _ => None
  end.

Definition toy_encode (params : SaveParams) (img : Image) : Encoded :=
  match params with
  | PNG _ _ => Written (header "P"%byte img ++ im img)
  | JPEG quality _ =>
      if has_alpha (mode img) then Failed OSError []
      else
        let keep := Z.to_nat (Z.of_nat (length (im img)) * quality / 100) in
        Written (header "J"%byte img ++ firstn keep (im img))
  end.

Definition toy_fill (m : string) (sz : Z * Z) (color : Z * Z * Z)
  : list byte :=
  let '(r, g, b) := color in
  let a := area sz in
  pad (buflen m sz)
      (repeat (byte_of_Z r) a ++ repeat (byte_of_Z g) a
       ++ repeat (byte_of_Z b) a).

Definition toy_getband (img : Image) (i : nat) : list byte :=
  firstn (area (size img)) (skipn (i * area (size img)) (im img)).

(** Planar compositing with a one-bit mask: a destination byte is kept
    where the mask is zero and replaced by the source byte elsewhere. *)
Fixpoint mix (dst src mask : list byte) : list byte :=
  match dst, src, mask with
  | d :: dst', s :: src', m :: mask' =>
      (if Byte.eqb m x00 then d else s) :: mix dst' src' mask'
  | _, _, _ => dst
  end.

Definition toy_blend (dst src mask : Image) : list byte :=
  let n := nbands (mode dst) in
  mix (im dst) (im src) (concat (repeat (im mask) n)).

Definition toy_resample (img : Image) (sz : Z * Z) (f : Resampling)
  : Exn + list byte :=
  if (fst sz <? 1) || (snd sz <? 1) then inl ValueError
  else inr (pad (buflen (mode img) sz) (im img)).

#[export] Instance toy : PIL := {|
  decode := toy_decode;
  encode := toy_encode;
  fill := toy_fill;
  getband := toy_getband;
  blend := toy_blend;
  resample := toy_resample
|}.

(** A [w] by [h] image of mode [m] whose buffer is all [v]. *)
Definition flat_image (m : string) (w h : Z) (v : byte) : Image :=
  {| mode := m; size := (w, h); im := repeat v (buflen m (w, h)) |}.

Definition banner : Path := ["public"; "og-banner.png"].
Definition banner_backup : Path := ["public"; "og-banner.backup.png"].

(** A world whose only file is [p], holding the PNG encoding of [img]. *)
Definition world_with (p : Path) (img : Image) : World :=
  {| files := {[ p := header "P"%byte img ++ im img ]}; trace := [] |}.

Definition written (e : Encoded) : list byte :=
  match e with
  | Written b => b
  | Failed _ _ => []
  end.

(** A 20 by 20 and a 30 by 30 opaque picture, and a 30 by 30 picture with
    an alpha band in mode LA. *)
Definition photo : Image := flat_image "RGB" 20 20 x07.
Definition poster : Image := flat_image "RGB" 30 30 x07.
Definition stencil : Image := flat_image "LA" 30 30 x07.

(** A world without files, and one whose banner is not an image. *)
Definition empty_world : World := {| files := ∅; trace := [] |}.
Definition garbage_world : World :=
  {| files := {[ banner := [] ]}; trace := [] |}.

Definition photo_jpg : Path := ["public"; "og-banner.jpg"].

Definition png_of (img : Image) : list byte :=
  written (toy_encode (PNG true 9) img).
Definition jpeg_of (q : Z) (img : Image) : list byte :=
  written (toy_encode (JPEG q true) img).




(** The same library with an encoder that always fails. *)
Definition no_encoder : PIL := {|
  decode := toy_decode;
  encode := fun _ _ => Failed OSError [];
  fill := toy_fill;
  getband := toy_getband;
  blend := toy_blend;
  resample := toy_resample
|}.

(** The 24 by 24 downscale of the poster. *)
Definition poster_small : Image :=
  {| mode := "RGB"; size := (24, 24);
     im := pad (buflen "RGB" (24, 24)) (im poster) |}.

End Toy.


(** ** Vocabulary of the statements *)

Section Vocabulary.
Context `{PIL}.

(** The alpha band of an RGBA image, [img.split()[3]]. *)
Definition alpha_band (img : Image) : Image :=
  {| mode := "L"; size := size img; im := getband img 3 |}.

(** The image [flatten] hands back: the composite over white for mode
    RGBA, the image itself for every other mode. *)
Definition normalize (img : Image) : Image :=
  if String.eqb (mode img) "RGBA" then
    Image_paste (Image_new "RGB" (size img) (255, 255, 255)) img
                (alpha_band img)
  else img.

(** The size in bytes of a file's contents. *)
Definition nbytes (b : list byte) : Z := Z.of_nat (length b).

(** The kilobyte figure the script computes for a file's contents. *)
Definition kb (b : list byte) : Q := Float.truediv_1024 (nbytes b).

(** The JPEG attempt at [quality] writes a file the script rejects. *)
Definition rejected (img : Image) (max_size_kb quality : Z) : Prop :=
  exists b, encode (JPEG quality true) img = Written b /\
            Float.lt_int (kb b) max_size_kb = false.

(** The same in bytes: the file is written, is of a size a float holds
    exactly, and is not strictly below the budget. *)
Definition over_budget (img : Image) (max_size_kb quality : Z) : Prop :=
  exists b, encode (JPEG quality true) img = Written b /\
            nbytes b < 2 ^ 53 /\ ~ nbytes b < max_size_kb * 1024.

(** The trace of the JPEG attempts at the qualities [qs]. *)
Definition attempts (img : Image) (p : Path) (qs : list Z) : list Event :=
  map (fun q => EvSave p (JPEG q true) img) qs.

(** The paths unlinked in a trace. *)
Definition unlinks (evs : list Event) : list Path :=
  omap (fun ev => match ev with EvUnlink p => Some p | _ => None end) evs.

(** The qualities of the JPEG encodes in a trace. *)
Definition jpeg_encodes (evs : list Event) : list Z :=
  omap (fun ev => match ev with
                  | EvSave _ (JPEG q _) _ => Some q
                  | _ => None
                  end) evs.

(** The downscaled image of the last stage, if resampling succeeds. *)
Definition downscaled (img : Image) : Exn + Image :=
  Image_resize img (Float.int_mul_scale (fst (size img)),
                    Float.int_mul_scale (snd (size img))) LANCZOS.

(** What may follow the backup rename in a run on a file holding [b0]:
    encodes, to the input path, of the normalized decoding of [b0] or of
    its downscale; a re-open of the backup, reading [b0] again; and the
    removal of the backup. *)
Definition after_backup (input backup : Path) (b0 : list byte)
    (img1 : Image) (ev : Event) : Prop :=
  match ev with
  | EvSave p _ img => p = input /\ (img = img1 \/ downscaled img1 = inr img)
  | EvOpen p b => p = backup /\ b = b0
  | EvUnlink p => p = backup
  | EvRename _ _ => False
  | EvTraceback _ => False
  end.

(** The last stage (lines 64-82) as a computation of its own. *)
Definition downscale_stage (input_path backup_path : Path)
  : M (Path * Q) :=
  let* img := Image_open backup_path in
  let* img := lift (flatten img) in
  let new_width := Float.int_mul_scale (fst (size img)) in
  let new_height := Float.int_mul_scale (snd (size img)) in
  match Image_resize img (new_width, new_height) LANCZOS with
  | inl e => raise e
  | inr img_resized =>
      Image_save img_resized input_path (JPEG 85 true) ;;;
      let* final_size := size_kb input_path in
      Path_unlink backup_path ;;;
      ret (input_path, final_size)
  end.

(** The pipeline from the lossless attempt on (lines 38-82). *)
Definition stages (img : Image) (input_path backup_path : Path)
    (max_size_kb : Z) : M (Path * Q) :=
  Image_save img input_path (PNG true 9) ;;;
  let* png_size := size_kb input_path in
  if Float.lt_int png_size max_size_kb then
    Path_unlink backup_path ;;;
    ret (input_path, png_size)
  else
    let* r := quality_loop img input_path backup_path max_size_kb qualities in
    match r with
    | Some out => ret out
    | None => downscale_stage input_path backup_path
    end.

(** Files other than the input and its backup are as they were. *)
Definition frame (input backup : Path) (w w' : World) : Prop :=
  forall p, p <> input -> p <> backup -> files w' !! p = files w !! p.

(** From [w] to [w'] the events [evs] were added, each of them allowed
    after the backup, and the other files were left alone. *)
Definition follows (input backup : Path) (b0 : list byte) (img1 : Image)
    (w w' : World) (evs : list Event) : Prop :=
  trace w' = trace w ++ evs /\
  Forall (after_backup input backup b0 img1) evs /\
  frame input backup w w'.

(** The backup is still there, holding [b0], and was never unlinked. *)
Definition backup_kept (backup : Path) (b0 : list byte) (w' : World)
    (evs : list Event) : Prop :=
  files w' !! backup = Some b0 /\ unlinks evs = [].

(** The backup is gone, and was unlinked exactly once. *)
Definition backup_removed (backup : Path) (w' : World)
    (evs : list Event) : Prop :=
  files w' !! backup = None /\ unlinks evs = [backup].

(** A run that returned normally with the file [b] at the input path:
    what it returned, what it added to the trace, and the files it left. *)
Definition accepted (w : World) (input backup : Path) (b : list byte)
    (evs : list Event) (run : Res (Path * Q) * World) : Prop :=
  fst run = Ok (input, kb b) /\
  trace (snd run) = trace w ++ evs /\
  files (snd run) !! input = Some b /\
  files (snd run) !! backup = None /\
  frame input backup w (snd run).

End Vocabulary.

(** * Properties *)

(** ** Floats *)

Module FloatFacts.
Import Float.

Lemma round53_exact n : 0 <= n < 2 ^ 53 -> round53 n = n.
Proof.
  intros [Hlo Hhi]. unfold round53, round_pos.
  destruct (Z.ltb_spec n 0); [lia|].
  destruct (Z.ltb_spec n (2 ^ 53)); [reflexivity|lia].
Qed.

(** Below 2^53 bytes the kilobyte comparison of the script is the
    comparison of the byte count with [k * 1024]. *)
Lemma lt_int_bytes n k :
  0 <= n < 2 ^ 53 ->
  lt_int (truediv_1024 n) k = true <-> n < k * 1024.
Proof.
  intros Hn. unfold lt_int, truediv_1024. cbn [Qnum Qden].
  rewrite (round53_exact n Hn). rewrite Z.ltb_lt. lia.
Qed.

Lemma lt_int_bytes_false n k :
  0 <= n < 2 ^ 53 ->
  lt_int (truediv_1024 n) k = false <-> ~ n < k * 1024.
Proof.
  intros Hn. rewrite <- (lt_int_bytes n k Hn).
  destruct (lt_int (truediv_1024 n) k); split; congruence.
Qed.

Example round53_ties :
  map round53 [2 ^ 53 + 1; 2 ^ 53 + 2; 2 ^ 53 + 3; 2 ^ 53 + 5]
  = [2 ^ 53; 2 ^ 53 + 2; 2 ^ 53 + 4; 2 ^ 53 + 4].
Proof. reflexivity. Qed.

(** At exactly the budget the comparison fails; one byte less passes. *)
Example lt_int_at_budget :
  lt_int (truediv_1024 (300 * 1024)) 300 = false /\
  lt_int (truediv_1024 (300 * 1024 - 1)) 300 = true.
Proof. split; reflexivity. Qed.

(** A 1200 by 630 banner is downscaled to 960 by 504. *)
Example int_mul_scale_banner :
  int_mul_scale 1200 = 960 /\ int_mul_scale 630 = 504.
Proof. split; reflexivity. Qed.

(** Five times the numerator of the double 0.8 is 2^54 + 1: the double
    lies above 4/5 by less than half a unit in the last place. *)
Lemma scale_num_spec : 5 * scale_num = 2 ^ 54 + 1.
Proof. reflexivity. Qed.

(** A rounded value is one of the two neighbours on the grid of step
    [2 ^ e]. *)
Lemma round_pos_grid n :
  2 ^ 53 <= n ->
  let e := Z.log2 n - 52 in
  round_pos n = n / 2 ^ e * 2 ^ e \/ round_pos n = (n / 2 ^ e + 1) * 2 ^ e.
Proof.
  intros Hn e. unfold round_pos.
  destruct (Z.ltb_spec n (2 ^ 53)); [lia|]. fold e.
  destruct ((2 ^ (e - 1) <? n mod 2 ^ e)
            || (n mod 2 ^ e =? 2 ^ (e - 1)) && Z.odd (n / 2 ^ e));
    [right|left]; reflexivity.
Qed.

(** [int(n * 0.8)] is the floor of four fifths of [n] for every
    dimension an image can have. *)
Lemma int_mul_scale_floor n :
  0 <= n < 2 ^ 31 -> int_mul_scale n = 4 * n / 5.
Proof.
  intros Hn. unfold int_mul_scale.
  rewrite (round53_exact n) by lia.
  set (p := n * scale_num).
  set (F := 4 * n / 5).
  assert (HF : 5 * F <= 4 * n < 5 * F + 5).
  { unfold F. pose proof (Z.mul_div_le (4 * n) 5 ltac:(lia)).
    pose proof (Z.mul_succ_div_gt (4 * n) 5 ltac:(lia)). lia. }
  assert (Hp : 5 * p = n * (2 ^ 54 + 1)).
  { unfold p. rewrite <- scale_num_spec. ring. }
  assert (Hp0 : 0 <= p) by (unfold p, scale_num; lia).
  assert (HR : F * 2 ^ 52 <= round53 p < (F + 1) * 2 ^ 52).
  { destruct (Z.lt_ge_cases p (2 ^ 53)) as [Hsmall|Hbig].
    - rewrite round53_exact by lia. lia.
    - unfold round53. destruct (Z.ltb_spec p 0); [lia|].
      set (e := Z.log2 p - 52).
      assert (He : 1 <= e <= 30).
      { unfold e. split.
        - pose proof (Z.log2_le_mono _ _ Hbig) as Hl.
          rewrite Z.log2_pow2 in Hl by lia. lia.
        - assert (Z.log2 p < 83); [|lia].
          apply Z.log2_lt_pow2; lia. }
      assert (Hsplit : 2 ^ 52 = 2 ^ (52 - e) * 2 ^ e).
      { rewrite <- Z.pow_add_r by lia. f_equal. lia. }
      assert (HX : 2 <= 2 ^ e <= 2 ^ 30).
      { split.
        - change 2 with (2 ^ 1) at 1. apply Z.pow_le_mono_r; lia.
        - apply Z.pow_le_mono_r; lia. }
      assert (HY : 0 < 2 ^ (52 - e)) by (apply Z.pow_pos_nonneg; lia).
      set (X := 2 ^ e) in *. set (Y := 2 ^ (52 - e)) in *.
      pose proof (Z.mul_div_le p X ltac:(lia)) as Hq1.
      pose proof (Z.mul_succ_div_gt p X ltac:(lia)) as Hq2.
      set (q := p / X) in *.
      assert (Hlow : F * Y <= q).
      { assert (F * Y * X <= p) by nia.
        assert (F * Y < q + 1) by nia. lia. }
      assert (Hup : q + 1 < (F + 1) * Y).
      { assert (X * q < ((F + 1) * Y - 1) * X) by nia. nia. }
      destruct (round_pos_grid p Hbig) as [Hr|Hr]; fold e in Hr;
        fold X in Hr; fold q in Hr; rewrite Hr; rewrite Hsplit; nia. }
  rewrite Z.quot_div_nonneg by lia.
  symmetry. apply Z.div_unique with (r := round53 p - F * 2 ^ 52); lia.
Qed.

End FloatFacts.

(** ** pathlib *)

Module PathlibFacts.
Import Pathlib.

Lemma append_nil (t : string) : String.append EmptyString t = t.
Proof. reflexivity. Qed.

Lemma append_cons a (s t : string) :
  String.append (String a s) t = String a (String.append s t).
Proof. reflexivity. Qed.

Lemma append_length (s t : string) :
  String.length (String.append s t) = (String.length s + String.length t)%nat.
Proof.
  induction s as [|a s IH]; [reflexivity|].
  rewrite append_cons. cbn. now rewrite IH.
Qed.

Lemma append_inv_head (s t u : string) :
  String.append s t = String.append s u -> t = u.
Proof.
  induction s as [|a s IH]; [now rewrite !append_nil|].
  rewrite !append_cons. intros [= Heq]. auto.
Qed.

Lemma substring_0_append (s t : string) :
  substring 0 (String.length s) (String.append s t) = s.
Proof.
  induction s as [|a s IH].
  - rewrite append_nil. now destruct t.
  - rewrite append_cons. cbn. now rewrite IH.
Qed.

(** The last occurrence splits the string: nothing after it is [c]. *)
Lemma rfind_split c s i :
  rfind c s = Some i ->
  exists rest, s = String.append (substring 0 i s) (String c rest) /\
               rfind c rest = None.
Proof.
  revert i. induction s as [|a s IH]; cbn; intros i Hi; [discriminate|].
  destruct (rfind c s) as [j|] eqn:Hj.
  - injection Hi as <-. destruct (IH j eq_refl) as (rest & Hs & Hr).
    exists rest. split; [|exact Hr]. cbn [substring].
    rewrite append_cons. now rewrite <- Hs.
  - destruct (Ascii.eqb_spec a c) as [->|]; [|discriminate].
    injection Hi as <-. exists s. now split.
Qed.

Lemma rfind_append c s rest :
  rfind c rest = None ->
  rfind c (String.append s (String c rest)) = Some (String.length s).
Proof.
  intros Hr. induction s as [|a s IH].
  - rewrite append_nil. cbn. rewrite Hr. now rewrite Ascii.eqb_refl.
  - rewrite append_cons. cbn. now rewrite IH.
Qed.

(** The stem of [s.e], for a stem [s] with a character that is not a dot
    and an extension [e] without a dot, is [s]. *)
Lemma stem_of_ext s e :
  lstrip "." s <> EmptyString -> rfind "." e = None ->
  stem_of (String.append s (String "." e)) = s.
Proof.
  intros Hs He. unfold stem_of.
  rewrite (rfind_append "." s e He), substring_0_append.
  destruct (lstrip "." s); [congruence|reflexivity].
Qed.

Lemma lstrip_append c (s t : string) :
  lstrip c s <> EmptyString ->
  lstrip c (String.append s t) = String.append (lstrip c s) t.
Proof.
  induction s as [|a s IH]; [now cbn|].
  rewrite append_cons. cbn [lstrip].
  destruct (Ascii.eqb a c); [exact IH|].
  intros _. now rewrite append_cons.
Qed.

Lemma substring_all (v : string) : substring 0 (String.length v) v = v.
Proof. induction v as [|a v IH]; cbn; [reflexivity|now rewrite IH]. Qed.

Lemma substring_append_r (u v : string) :
  substring (String.length u) (String.length v) (String.append u v) = v.
Proof.
  induction u as [|a u IH].
  - rewrite append_nil. apply substring_all.
  - rewrite append_cons. cbn. exact IH.
Qed.

(** The suffix of [s.e] is [.e]. *)
Lemma suffix_of_ext s e :
  lstrip "." s <> EmptyString -> rfind "." e = None ->
  suffix_of (String.append s (String "." e)) = String "." e.
Proof.
  intros Hs He. unfold suffix_of.
  rewrite (lstrip_append "." s _ Hs).
  rewrite (rfind_append "." (lstrip "." s) e He).
  rewrite append_length, Nat.add_comm, Nat.add_sub.
  apply substring_append_r.
Qed.

(** A name is never its own stem followed by [.backup.png]. *)
Lemma stem_backup_ne nm : String.append (stem_of nm) ".backup.png" <> nm.
Proof.
  assert (Hlen : String.append nm ".backup.png" <> nm).
  { intros Heq. apply (f_equal String.length) in Heq.
    rewrite append_length in Heq. cbn in Heq. lia. }
  unfold stem_of. destruct (rfind "." nm) as [i|] eqn:Hi; [|exact Hlen].
  destruct (lstrip "." (substring 0 i nm)); [exact Hlen|].
  destruct (rfind_split _ _ _ Hi) as (rest & Hnm & Hrest).
  intros Heq. rewrite Hnm in Heq at 2.
  apply append_inv_head in Heq. injection Heq as <-. discriminate.
Qed.

Lemma last_snoc (p : Path) nm : List.last (p ++ [nm]) EmptyString = nm.
Proof. apply List.last_last. Qed.

(** What [with_suffix('.backup.png')] returns, when it returns. *)
Lemma with_suffix_backup p q :
  with_suffix p ".backup.png" = Some q ->
  p <> [] /\ q = removelast p ++ [String.append (stem p) ".backup.png"].
Proof.
  unfold with_suffix, with_name.
  destruct (String.eqb (stem p) EmptyString); [discriminate|]. cbn [negb andb].
  destruct (_ || _); [discriminate|].
  destruct p as [|c p]; [discriminate|].
  intros [= <-]. split; [discriminate|reflexivity].
Qed.

Example with_suffix_banner :
  with_suffix ["public"; "og-banner.png"] ".backup.png"
  = Some ["public"; "og-banner.backup.png"].
Proof. reflexivity. Qed.

Example stem_of_samples :
  map stem_of ["a.tar.gz"; ".bashrc"; "foo."; "..."; "README"]
  = ["a.tar"; ".bashrc"; "foo"; "..."; "README"].
Proof. reflexivity. Qed.

(** The backup path differs from the path it is derived from. *)
Lemma with_suffix_backup_ne p q :
  with_suffix p ".backup.png" = Some q -> q <> p.
Proof.
  intros Hq. destruct (with_suffix_backup p q Hq) as [Hp ->].
  intros Heq. rewrite (app_removelast_last EmptyString Hp) in Heq at 3.
  apply app_inv_head in Heq. injection Heq as Heq.
  exact (stem_backup_ne _ Heq).
Qed.

(** [with_suffix('.backup.png')] succeeds on every path with a name. *)
Lemma with_suffix_backup_some p :
  name p <> EmptyString ->
  with_suffix p ".backup.png"
  = Some (removelast p ++ [String.append (stem p) ".backup.png"]).
Proof.
  intros Hnm. unfold with_suffix, with_name.
  assert (Hst : stem p <> EmptyString).
  { unfold stem, stem_of. destruct (rfind "." (name p)) as [i|]; [|exact Hnm].
    destruct (lstrip "." (substring 0 i (name p))) eqn:Hl; [exact Hnm|].
    intros Heq. rewrite Heq in Hl. discriminate. }
  destruct (String.eqb_spec (stem p) EmptyString); [contradiction|]. cbn [negb andb].
  destruct (String.append (stem p) ".backup.png") eqn:Happ.
  { apply (f_equal String.length) in Happ. rewrite append_length in Happ.
    cbn in Happ. lia. }
  rewrite <- Happ.
  destruct (String.eqb_spec (String.append (stem p) ".backup.png") EmptyString) as [E|_].
  { rewrite Happ in E. discriminate. }
  destruct (String.eqb_spec (String.append (stem p) ".backup.png") ".") as [E|_].
  { apply (f_equal String.length) in E. rewrite append_length in E.
    cbn in E. lia. }
  cbn [orb]. destruct p; [now cbn in Hnm|reflexivity].
Qed.

(** For a name [s.e] the backup is named [s.backup.png]. *)
Lemma with_suffix_backup_ext dir s e :
  lstrip "." s <> EmptyString -> rfind "." e = None ->
  with_suffix (dir ++ [String.append s (String "." e)]) ".backup.png"
  = Some (dir ++ [String.append s ".backup.png"]).
Proof.
  intros Hs He.
  rewrite with_suffix_backup_some.
  - unfold stem, name. rewrite last_snoc, removelast_last.
    now rewrite stem_of_ext.
  - unfold name. rewrite last_snoc. destruct s; [now cbn in Hs|discriminate].
Qed.

End PathlibFacts.

(** ** Running the calls *)

Section Steps.
Context `{PIL}.

Lemma bind_run {A B} (m : M A) (k : A -> M B) w r w1 :
  m w = (r, w1) ->
  bind m k w = match r with Ok a => k a w1 | Raise e => (Raise e, w1) end.
Proof. intros Hm. unfold bind. rewrite Hm. now destruct r. Qed.

Lemma flatten_normalize img : flatten img = Ok (normalize img).
Proof.
  unfold flatten, normalize.
  destruct (String.eqb_spec (mode img) "RGBA") as [E|]; [|reflexivity].
  unfold Image_split. rewrite E. reflexivity.
Qed.

Lemma normalize_size img : size (normalize img) = size img.
Proof. unfold normalize. now destruct (String.eqb (mode img) "RGBA"). Qed.

Lemma normalize_mode img : mode (normalize img) <> "RGBA".
Proof.
  unfold normalize.
  destruct (String.eqb_spec (mode img) "RGBA"); [discriminate|assumption].
Qed.

Lemma normalize_idem img : normalize (normalize img) = normalize img.
Proof.
  unfold normalize at 1.
  destruct (String.eqb_spec (mode (normalize img)) "RGBA") as [E|];
    [|reflexivity].
  now apply normalize_mode in E.
Qed.

Lemma open_run p b img w :
  files w !! p = Some b -> decode b = Some img ->
  Image_open p w = (Ok img, mkWorld (files w) (trace w ++ [EvOpen p b])).
Proof. intros Hf Hd. unfold Image_open. now rewrite Hf, Hd. Qed.

Lemma save_run img p params b w :
  encode params img = Written b ->
  Image_save img p params w
  = (Ok tt, mkWorld (<[p := b]> (files w))
                    (trace w ++ [EvSave p params img])).
Proof. intros He. unfold Image_save. now rewrite He. Qed.

Lemma size_run p b w :
  files w !! p = Some b -> size_kb p w = (Ok (kb b), w).
Proof. intros Hf. unfold size_kb, bind, st_size. now rewrite Hf. Qed.

Lemma unlink_run p b w :
  files w !! p = Some b ->
  Path_unlink p w
  = (Ok tt, mkWorld (delete p (files w)) (trace w ++ [EvUnlink p])).
Proof. intros Hf. unfold Path_unlink. now rewrite Hf. Qed.

Lemma rename_run src dst b w :
  files w !! src = Some b ->
  Path_rename src dst w
  = (Ok tt, mkWorld (<[dst := b]> (delete src (files w)))
                    (trace w ++ [EvRename src dst])).
Proof. intros Hf. unfold Path_rename. now rewrite Hf. Qed.

Lemma size_after_save p b fs tr :
  size_kb p (mkWorld (<[p := b]> fs) tr)
  = (Ok (kb b), mkWorld (<[p := b]> fs) tr).
Proof. apply size_run. cbn. apply lookup_insert_eq. Qed.

Lemma unlink_after_save p q b bk fs tr :
  q <> p -> fs !! q = Some bk ->
  Path_unlink q (mkWorld (<[p := b]> fs) tr)
  = (Ok tt, mkWorld (delete q (<[p := b]> fs)) (tr ++ [EvUnlink q])).
Proof.
  intros Hne Hq. apply (unlink_run q bk). cbn. now rewrite lookup_insert_ne.
Qed.

(** [compress_image] runs [stages] once the original is moved aside. *)
Lemma compress_image_stages input backup b0 img0 max_size_kb w :
  files w !! input = Some b0 -> decode b0 = Some img0 ->
  Pathlib.with_suffix input ".backup.png" = Some backup ->
  compress_image input max_size_kb w
  = stages (normalize img0) input backup max_size_kb
      (mkWorld (<[backup := b0]> (delete input (files w)))
               (trace w ++ [EvOpen input b0; EvRename input backup])).
Proof.
  intros Hf Hd Hb. unfold compress_image.
  rewrite (bind_run _ _ _ _ _ (open_run _ _ _ _ Hf Hd)). cbn beta iota.
  erewrite (bind_run _ _ _ _ _ (size_run input b0 (mkWorld _ _) Hf)).
  cbn beta iota.
  unfold lift at 1. rewrite flatten_normalize. unfold bind at 1.
  unfold Path_with_suffix. rewrite Hb. unfold ret at 1, bind at 1.
  erewrite (bind_run _ _ _ _ _ (rename_run input backup b0 (mkWorld _ _) Hf)).
  cbn [files trace]. rewrite <- app_assoc. reflexivity.
Qed.

End Steps.

(** ** The stages, when every library call succeeds *)

Section Stages.
Context `{PIL}.
Variables (input backup : Path) (img : Image) (max_size_kb : Z).
Hypothesis Hne : backup <> input.

Lemma loop_rejects qs :
  Forall (rejected img max_size_kb) qs ->
  forall w, exists fs,
    quality_loop img input backup max_size_kb qs w
    = (Ok None, mkWorld fs (trace w ++ attempts img input qs)) /\
    (forall p, p <> input -> fs !! p = files w !! p).
Proof.
  induction 1 as [|q qs (b & Hb & Hlt) _ IH]; intros [fs tr].
  - exists fs. cbn. now rewrite app_nil_r.
  - cbn [quality_loop].
    erewrite (bind_run _ _ _ _ _ (save_run _ _ _ _ _ Hb)). cbn beta iota; cbn [files trace].
    rewrite (bind_run _ _ _ _ _ (size_after_save input b _ _)).
    cbn beta iota; cbn [files trace]. rewrite Hlt. cbn beta iota; cbn [files trace].
    destruct (IH (mkWorld (<[input:=b]> fs)
                          (tr ++ [EvSave input (JPEG q true) img])))
      as (fs' & -> & Hfs').
    exists fs'. cbn [trace files] in *. split.
    + now rewrite <- app_assoc.
    + intros p Hp. rewrite (Hfs' p Hp). now apply lookup_insert_ne.
Qed.

Lemma loop_accepts pre q post b bk :
  Forall (rejected img max_size_kb) pre ->
  encode (JPEG q true) img = Written b ->
  Float.lt_int (kb b) max_size_kb = true ->
  forall w, files w !! backup = Some bk ->
    quality_loop img input backup max_size_kb (pre ++ q :: post) w
    = (Ok (Some (input, kb b)),
       mkWorld (delete backup (<[input := b]> (files w)))
               (trace w ++ attempts img input (pre ++ [q])
                ++ [EvUnlink backup])).
Proof.
  intros Hpre Hb Hlt.
  induction Hpre as [|q' pre (b' & Hb' & Hlt') _ IH]; intros [fs tr] Hbk;
    cbn [app quality_loop files trace] in *.
  - erewrite (bind_run _ _ _ _ _ (save_run _ _ _ _ _ Hb)). cbn beta iota; cbn [files trace].
    rewrite (bind_run _ _ _ _ _ (size_after_save input b _ _)).
    cbn beta iota; cbn [files trace]. rewrite Hlt. cbn beta iota; cbn [files trace].
    rewrite (bind_run _ _ _ _ _
               (unlink_after_save input backup b bk _ _ Hne Hbk)).
    cbn. now rewrite <- app_assoc.
  - erewrite (bind_run _ _ _ _ _ (save_run _ _ _ _ _ Hb')). cbn beta iota; cbn [files trace].
    rewrite (bind_run _ _ _ _ _ (size_after_save input b' _ _)).
    cbn beta iota; cbn [files trace]. rewrite Hlt'. cbn beta iota; cbn [files trace].
    rewrite IH by (cbn; now rewrite lookup_insert_ne).
    cbn [files trace]. rewrite insert_insert_eq.
    now rewrite <- app_assoc.
Qed.

Lemma stages_lossless bpng bk w :
  encode (PNG true 9) img = Written bpng ->
  Float.lt_int (kb bpng) max_size_kb = true ->
  files w !! backup = Some bk ->
  accepted w input backup bpng
    [EvSave input (PNG true 9) img; EvUnlink backup]
    (stages img input backup max_size_kb w).
Proof.
  intros Hb Hlt Hbk. unfold stages.
  erewrite (bind_run _ _ _ _ _ (save_run _ _ _ _ _ Hb)). cbn beta iota; cbn [files trace].
  rewrite (bind_run _ _ _ _ _ (size_after_save input bpng _ _)).
  cbn beta iota; cbn [files trace]. rewrite Hlt. cbn beta iota; cbn [files trace].
  rewrite (bind_run _ _ _ _ _
             (unlink_after_save input backup bpng bk _ _ Hne Hbk)).
  unfold accepted, frame, ret; cbn [fst snd files trace].
  split; [reflexivity|]. split; [|split; [|split]].
  - now rewrite <- app_assoc.
  - rewrite lookup_delete_ne by done. apply lookup_insert_eq.
  - apply lookup_delete_eq.
  - intros p Hp1 Hp2.
    rewrite lookup_delete_ne by done. now apply lookup_insert_ne.
Qed.

Lemma stages_ladder bpng pre q post b bk w :
  encode (PNG true 9) img = Written bpng ->
  Float.lt_int (kb bpng) max_size_kb = false ->
  qualities = pre ++ q :: post ->
  Forall (rejected img max_size_kb) pre ->
  encode (JPEG q true) img = Written b ->
  Float.lt_int (kb b) max_size_kb = true ->
  files w !! backup = Some bk ->
  accepted w input backup b
    (EvSave input (PNG true 9) img :: attempts img input (pre ++ [q])
     ++ [EvUnlink backup])
    (stages img input backup max_size_kb w).
Proof.
  intros Hpng Hover Hqs Hpre Hb Hlt Hbk. unfold stages.
  erewrite (bind_run _ _ _ _ _ (save_run _ _ _ _ _ Hpng)). cbn beta iota; cbn [files trace].
  rewrite (bind_run _ _ _ _ _ (size_after_save input bpng _ _)).
  cbn beta iota; cbn [files trace]. rewrite Hover, Hqs. cbn beta iota; cbn [files trace].
  assert (Hbk' : <[input:=bpng]> (files w) !! backup = Some bk)
    by now rewrite lookup_insert_ne.
  rewrite (bind_run _ _ _ _ _
             (loop_accepts pre q post b bk Hpre Hb Hlt (mkWorld _ _) Hbk')).
  unfold accepted, frame, ret; cbn [fst snd files trace].
  split; [reflexivity|]. split; [|split; [|split]].
  - now rewrite <- app_assoc.
  - rewrite lookup_delete_ne by done. apply lookup_insert_eq.
  - apply lookup_delete_eq.
  - intros p Hp1 Hp2.
    rewrite lookup_delete_ne by done. now rewrite !lookup_insert_ne.
Qed.

Lemma stages_downscale bpng b0 img0 small bfinal w :
  encode (PNG true 9) img = Written bpng ->
  Float.lt_int (kb bpng) max_size_kb = false ->
  Forall (rejected img max_size_kb) qualities ->
  files w !! backup = Some b0 ->
  decode b0 = Some img0 ->
  img = normalize img0 ->
  downscaled img = inr small ->
  encode (JPEG 85 true) small = Written bfinal ->
  accepted w input backup bfinal
    (EvSave input (PNG true 9) img :: attempts img input qualities
     ++ [EvOpen backup b0; EvSave input (JPEG 85 true) small;
         EvUnlink backup])
    (stages img input backup max_size_kb w).
Proof.
  intros Hpng Hover Hrej Hbk Hdec Himg Hsmall Hfinal. unfold stages.
  erewrite (bind_run _ _ _ _ _ (save_run _ _ _ _ _ Hpng)). cbn beta iota; cbn [files trace].
  rewrite (bind_run _ _ _ _ _ (size_after_save input bpng _ _)).
  cbn beta iota; cbn [files trace]. rewrite Hover. cbn beta iota; cbn [files trace].
  destruct (loop_rejects qualities Hrej
              (mkWorld (<[input:=bpng]> (files w))
                       (trace w ++ [EvSave input (PNG true 9) img])))
    as (fs & Hloop & Hfs).
  rewrite (bind_run _ _ _ _ _ Hloop). cbn beta iota; cbn [files trace]. cbn [files trace] in *.
  assert (Hfsbk : fs !! backup = Some b0).
  { rewrite Hfs by done. now rewrite lookup_insert_ne. }
  unfold downscale_stage.
  rewrite (bind_run _ _ _ _ _
             (open_run backup b0 img0 (mkWorld _ _) Hfsbk Hdec)).
  cbn beta iota; cbn [files trace]. unfold lift at 1. rewrite flatten_normalize, <- Himg.
  unfold bind at 1. unfold downscaled in Hsmall. rewrite Hsmall.
  erewrite (bind_run _ _ _ _ _ (save_run _ _ _ _ _ Hfinal)). cbn beta iota; cbn [files trace].
  rewrite (bind_run _ _ _ _ _ (size_after_save input bfinal _ _)).
  cbn beta iota; cbn [files trace].
  rewrite (bind_run _ _ _ _ _
             (unlink_after_save input backup bfinal b0 _ _ Hne Hfsbk)).
  unfold accepted, frame, ret; cbn [fst snd files trace].
  split; [reflexivity|]. split; [|split; [|split]].
  - rewrite <- !app_assoc. reflexivity.
  - rewrite lookup_delete_ne by done. apply lookup_insert_eq.
  - apply lookup_delete_eq.
  - intros p Hp1 Hp2.
    rewrite lookup_delete_ne by done. rewrite lookup_insert_ne by done.
    rewrite Hfs by done. now apply lookup_insert_ne.
Qed.

End Stages.

(** ** The stages, whatever the library calls do *)

Section Shape.
Context `{PIL}.
Variables (input backup : Path) (b0 : list byte) (img0 : Image).
Variable max_size_kb : Z.
Hypothesis Hne : backup <> input.
Hypothesis Hdec : decode b0 = Some img0.

Let img1 := normalize img0.
Let follows := follows input backup b0 img1.

Lemma bind_inv {A B} (m : M A) (k : A -> M B) w r w' :
  bind m k w = (r, w') ->
  (exists a w1, m w = (Ok a, w1) /\ k a w1 = (r, w')) \/
  (exists e, m w = (Raise e, w') /\ r = Raise e).
Proof.
  unfold bind. destruct (m w) as [[a|e] w1]; intros Hk.
  - left. eauto.
  - right. injection Hk as <- <-. eauto.
Qed.

Lemma save_inv img p params w r w' :
  Image_save img p params w = (r, w') ->
  trace w' = trace w ++ [EvSave p params img] /\
  (forall q, q <> p -> files w' !! q = files w !! q).
Proof.
  unfold Image_save.
  destruct (encode params img) as [b|e partial];
    [|destruct (files w !! p)]; intros [= <- <-]; cbn [files trace record];
    (split; [reflexivity|]); intros q Hq; cbn;
    try reflexivity; now apply lookup_insert_ne.
Qed.

Lemma size_inv p w r w' : size_kb p w = (r, w') -> w' = w.
Proof.
  unfold size_kb, bind, st_size, ret.
  destruct (files w !! p); now intros [= <- <-].
Qed.

Lemma unlink_inv p b w r w' :
  files w !! p = Some b -> Path_unlink p w = (r, w') ->
  r = Ok tt /\ trace w' = trace w ++ [EvUnlink p] /\
  files w' = delete p (files w).
Proof. intros Hp. rewrite (unlink_run p b w Hp). now intros [= <- <-]. Qed.

Lemma follows_refl w : follows w w [].
Proof.
  split; [|split].
  - now rewrite app_nil_r.
  - constructor.
  - now intros p _ _.
Qed.

Lemma follows_step w w1 w2 evs ev :
  follows w w1 evs ->
  trace w2 = trace w1 ++ [ev] ->
  after_backup input backup b0 img1 ev ->
  (forall p, p <> input -> p <> backup -> files w2 !! p = files w1 !! p) ->
  follows w w2 (evs ++ [ev]).
Proof.
  intros (Ht & Hall & Hfr) Ht2 Hev Hfr2. split; [|split].
  - now rewrite Ht2, Ht, app_assoc.
  - apply Forall_app. split; [exact Hall|]. now constructor.
  - intros p Hp1 Hp2. now rewrite Hfr2, Hfr.
Qed.

Lemma follows_trans w w1 w2 evs1 evs2 :
  follows w w1 evs1 -> follows w1 w2 evs2 ->
  follows w w2 (evs1 ++ evs2).
Proof.
  intros (Ht & Hall & Hfr) (Ht2 & Hall2 & Hfr2). split; [|split].
  - now rewrite Ht2, Ht, app_assoc.
  - apply Forall_app. now split.
  - intros p Hp1 Hp2. now rewrite Hfr2, Hfr.
Qed.

Lemma unlinks_cons ev evs :
  unlinks (ev :: evs)
  = match ev with EvUnlink p => p :: unlinks evs | _ => unlinks evs end.
Proof. now destruct ev. Qed.

Lemma follows_save w w' img params :
  img = img1 \/ downscaled img1 = inr img ->
  trace w' = trace w ++ [EvSave input params img] ->
  (forall q, q <> input -> files w' !! q = files w !! q) ->
  follows w w' [EvSave input params img] /\
  files w' !! backup = files w !! backup.
Proof.
  intros Himg Ht Hf. split; [|now apply Hf].
  apply (follows_step w w w' [] _ (follows_refl w) Ht).
  - now split.
  - intros p Hp _. now apply Hf.
Qed.

Lemma follows_unlink w w1 w' evs b :
  follows w w1 evs -> files w1 !! backup = Some b ->
  trace w' = trace w1 ++ [EvUnlink backup] ->
  files w' = delete backup (files w1) ->
  follows w w' (evs ++ [EvUnlink backup]) /\ files w' !! backup = None.
Proof.
  intros Hfol Hb Ht Hf. split.
  - apply (follows_step w w1 w' evs _ Hfol Ht); [reflexivity|].
    intros p _ Hp. rewrite Hf. now apply lookup_delete_ne.
  - rewrite Hf. apply lookup_delete_eq.
Qed.

Lemma unlinks_snoc evs p : unlinks (evs ++ [EvUnlink p]) = unlinks evs ++ [p].
Proof. unfold unlinks. now rewrite omap_app. Qed.

Lemma unlinks_app evs1 evs2 :
  unlinks (evs1 ++ evs2) = unlinks evs1 ++ unlinks evs2.
Proof. unfold unlinks. now rewrite omap_app. Qed.

(** The quality loop: it ends with the backup removed exactly when it
    returns a result. *)
Lemma loop_shape qs w r w' :
  files w !! backup = Some b0 ->
  quality_loop img1 input backup max_size_kb qs w = (r, w') ->
  exists evs, follows w w' evs /\
    match r with
    | Ok (Some (out, _)) => out = input /\ backup_removed backup w' evs
    | _ => backup_kept backup b0 w' evs
    end.
Proof.
  revert w. induction qs as [|q qs IH]; intros w Hbk Hrun;
    cbn [quality_loop] in Hrun.
  - injection Hrun as <- <-. exists []. split; [apply follows_refl|].
    now split.
  - apply bind_inv in Hrun as [(u & w1 & Hsave & Hrun)|(e & Hsave & ->)];
      apply save_inv in Hsave as (Ht1 & Hf1);
      destruct (follows_save _ _ img1 (JPEG q true) (or_introl eq_refl)
                  Ht1 Hf1) as (Hfol1 & Hbk1); rewrite Hbk in Hbk1.
    2: { eexists. split; [exact Hfol1|]. now split. }
    apply bind_inv in Hrun as [(sz & w2 & Hsz & Hrun)|(e & Hsz & ->)];
      apply size_inv in Hsz as ->.
    2: { eexists. split; [exact Hfol1|]. now split. }
    destruct (Float.lt_int sz max_size_kb).
    + apply bind_inv in Hrun as [(u' & w3 & Hun & Hrun)|(e & Hun & ->)];
        destruct (unlink_inv _ _ _ _ _ Hbk1 Hun) as (Hr & Ht3 & Hf3);
        [|discriminate].
      injection Hrun as <- <-.
      destruct (follows_unlink _ _ _ _ _ Hfol1 Hbk1 Ht3 Hf3) as (Hfol & Hgone).
      eexists. split; [exact Hfol|]. split; [reflexivity|]. now split.
    + destruct (IH w1 Hbk1 Hrun) as (evs & Hfol & Hpost).
      exists ([EvSave input (JPEG q true) img1] ++ evs).
      split; [exact (follows_trans _ _ _ _ _ Hfol1 Hfol)|].
      unfold backup_removed, backup_kept in *.
      cbn [app]. rewrite unlinks_cons. exact Hpost.
Qed.

(** The last stage. *)
Lemma downscale_shape w r w' :
  files w !! backup = Some b0 ->
  downscale_stage input backup w = (r, w') ->
  exists evs, follows w w' evs /\
    match r with
    | Ok (out, _) => out = input /\ backup_removed backup w' evs
    | Raise _ => backup_kept backup b0 w' evs
    end.
Proof.
  intros Hbk Hrun. unfold downscale_stage in Hrun.
  rewrite (bind_run _ _ _ _ _ (open_run _ _ _ _ Hbk Hdec)) in Hrun.
  cbn beta iota in Hrun. unfold lift at 1 in Hrun.
  rewrite flatten_normalize in Hrun. unfold bind at 1 in Hrun.
  fold img1 in Hrun.
  set (w0 := mkWorld (files w) (trace w ++ [EvOpen backup b0])) in *.
  assert (Hfol0 : follows w w0 [EvOpen backup b0]).
  { apply (follows_step w w w0 [] _ (follows_refl w)); [reflexivity| |].
    - now split.
    - now intros p _ _. }
  destruct (Image_resize img1 _ LANCZOS) as [e|small] eqn:Hsmall.
  { injection Hrun as <- <-. eexists. split; [exact Hfol0|]. now split. }
  apply bind_inv in Hrun as [(u & w1 & Hsave & Hrun)|(e & Hsave & ->)];
    apply save_inv in Hsave as (Ht1 & Hf1);
    destruct (follows_save _ _ small (JPEG 85 true) (or_intror Hsmall)
                Ht1 Hf1) as (Hfol1 & Hbk1);
    change (files w0) with (files w) in Hbk1; rewrite Hbk in Hbk1;
    pose proof (follows_trans _ _ _ _ _ Hfol0 Hfol1) as Hfol.
  2: { eexists. split; [exact Hfol|]. now split. }
  apply bind_inv in Hrun as [(sz & w2 & Hsz & Hrun)|(e & Hsz & ->)];
    apply size_inv in Hsz as ->.
  2: { eexists. split; [exact Hfol|]. now split. }
  apply bind_inv in Hrun as [(u' & w3 & Hun & Hrun)|(e & Hun & ->)];
    destruct (unlink_inv _ _ _ _ _ Hbk1 Hun) as (Hr & Ht3 & Hf3);
    [|discriminate].
  injection Hrun as <- <-.
  destruct (follows_unlink _ _ _ _ _ Hfol Hbk1 Ht3 Hf3) as (Hfol' & Hgone).
  eexists. split; [exact Hfol'|]. split; [reflexivity|]. now split.
Qed.

(** The stages after the backup: a normal return has removed the backup,
    an exception has left it in place. *)
Lemma stages_shape w r w' :
  files w !! backup = Some b0 ->
  stages img1 input backup max_size_kb w = (r, w') ->
  exists evs, follows w w' evs /\
    match r with
    | Ok (out, _) => out = input /\ backup_removed backup w' evs
    | Raise _ => backup_kept backup b0 w' evs
    end.
Proof.
  intros Hbk Hrun. unfold stages in Hrun.
  apply bind_inv in Hrun as [(u & w1 & Hsave & Hrun)|(e & Hsave & ->)];
    apply save_inv in Hsave as (Ht1 & Hf1);
    destruct (follows_save _ _ img1 (PNG true 9) (or_introl eq_refl)
                Ht1 Hf1) as (Hfol1 & Hbk1); rewrite Hbk in Hbk1.
  2: { eexists. split; [exact Hfol1|]. now split. }
  apply bind_inv in Hrun as [(sz & w2 & Hsz & Hrun)|(e & Hsz & ->)];
    apply size_inv in Hsz as ->.
  2: { eexists. split; [exact Hfol1|]. now split. }
  destruct (Float.lt_int sz max_size_kb).
  - apply bind_inv in Hrun as [(u' & w3 & Hun & Hrun)|(e & Hun & ->)];
      destruct (unlink_inv _ _ _ _ _ Hbk1 Hun) as (Hr & Ht3 & Hf3);
      [|discriminate].
    injection Hrun as <- <-.
    destruct (follows_unlink _ _ _ _ _ Hfol1 Hbk1 Ht3 Hf3) as (Hfol & Hgone).
    eexists. split; [exact Hfol|]. split; [reflexivity|]. now split.
  - apply bind_inv in Hrun as [(o & w2 & Hloop & Hrun)|(e & Hloop & ->)];
      destruct (loop_shape _ _ _ _ Hbk1 Hloop) as (evs & Hfol2 & Hpost);
      pose proof (follows_trans _ _ _ _ _ Hfol1 Hfol2) as Hfol.
    2: { eexists. split; [exact Hfol|].
         destruct Hpost as [Hk Hu]. split; [exact Hk|].
         now rewrite unlinks_app, Hu. }
    destruct o as [[out sz']|].
    + injection Hrun as <- <-. eexists. split; [exact Hfol|].
      destruct Hpost as (-> & Hg & Hu). split; [reflexivity|].
      split; [exact Hg|]. now rewrite unlinks_app, Hu.
    + destruct Hpost as [Hk Hu].
      destruct (downscale_shape _ _ _ Hk Hrun) as (evs3 & Hfol3 & Hpost3).
      eexists. split; [exact (follows_trans _ _ _ _ _ Hfol Hfol3)|].
      destruct r as [[out sz']|e]; unfold backup_removed, backup_kept in *;
        rewrite !unlinks_app, Hu; exact Hpost3.
Qed.

End Shape.

(** ** The whole run *)

Section Whole.
Context `{PIL}.

(** A run on a file that decodes and has a name: the original is opened
    and moved to the backup first, and what follows is allowed after the
    backup; a normal return has removed the backup, an exception has left
    it holding the original bytes. *)
Lemma compress_image_shape input backup b0 img0 max_size_kb w r w' :
  files w !! input = Some b0 -> decode b0 = Some img0 ->
  Pathlib.with_suffix input ".backup.png" = Some backup ->
  compress_image input max_size_kb w = (r, w') ->
  exists evs,
    trace w' = trace w ++ EvOpen input b0 :: EvRename input backup :: evs /\
    Forall (after_backup input backup b0 (normalize img0)) evs /\
    frame input backup w w' /\
    match r with
    | Ok (out, _) => out = input /\ backup_removed backup w' evs
    | Raise _ => backup_kept backup b0 w' evs
    end.
Proof.
  intros Hf Hd Hb Hrun.
  pose proof (PathlibFacts.with_suffix_backup_ne _ _ Hb) as Hne.
  rewrite (compress_image_stages _ _ _ _ _ _ Hf Hd Hb) in Hrun.
  apply (stages_shape input backup b0 img0 max_size_kb Hne Hd) in Hrun.
  2: { cbn. apply lookup_insert_eq. }
  destruct Hrun as (evs & (Ht & Hall & Hfr) & Hpost).
  exists evs. cbn [files trace] in *. split; [|split; [|split]].
  - rewrite Ht, <- app_assoc. reflexivity.
  - exact Hall.
  - intros p Hp1 Hp2. rewrite (Hfr p Hp1 Hp2). cbn.
    rewrite lookup_insert_ne by done. now apply lookup_delete_ne.
  - exact Hpost.
Qed.

(** A run that cannot open its input, or cannot name a backup, raises
    with every file as it was and nothing renamed. *)
Lemma compress_image_early input max_size_kb w r w' :
  compress_image input max_size_kb w = (r, w') ->
  (exists b0 img0 backup,
      files w !! input = Some b0 /\ decode b0 = Some img0 /\
      Pathlib.with_suffix input ".backup.png" = Some backup) \/
  (exists e, r = Raise e /\ files w' = files w /\
             (trace w' = trace w \/
              exists b0, files w !! input = Some b0 /\
                         trace w' = trace w ++ [EvOpen input b0])).
Proof.
  intros Hrun.
  destruct (files w !! input) as [b0|] eqn:Hf.
  2: { right. unfold compress_image, bind, Image_open in Hrun.
       rewrite Hf in Hrun. injection Hrun as <- <-. eauto. }
  destruct (decode b0) as [img0|] eqn:Hd.
  2: { right. unfold compress_image, bind, Image_open in Hrun.
       rewrite Hf, Hd in Hrun. injection Hrun as <- <-. eauto. }
  destruct (Pathlib.with_suffix input ".backup.png") as [backup|] eqn:Hb.
  { left. eauto 6. }
  right. unfold compress_image in Hrun.
  rewrite (bind_run _ _ _ _ _ (open_run _ _ _ _ Hf Hd)) in Hrun.
  cbn beta iota in Hrun.
  erewrite (bind_run _ _ _ _ _ (size_run input b0 (mkWorld _ _) Hf)) in Hrun.
  cbn beta iota in Hrun. unfold lift at 1 in Hrun.
  rewrite flatten_normalize in Hrun. unfold bind at 1 in Hrun.
  unfold Path_with_suffix in Hrun. rewrite Hb in Hrun.
  unfold raise, bind in Hrun. injection Hrun as <- <-. cbn. eauto 8.
Qed.

End Whole.

(** ** The accepting runs *)

Section Accepting.
Context `{PIL}.
Variables (w : World) (input backup : Path) (b0 : list byte) (img0 : Image).
Variable max_size_kb : Z.
Hypothesis Hfile : files w !! input = Some b0.
Hypothesis Hdec : decode b0 = Some img0.
Hypothesis Hbackup : Pathlib.with_suffix input ".backup.png" = Some backup.

Lemma nbytes_range b : nbytes b < 2 ^ 53 -> 0 <= nbytes b < 2 ^ 53.
Proof. unfold nbytes. lia. Qed.

Lemma under_budget_lt b :
  nbytes b < 2 ^ 53 -> nbytes b < max_size_kb * 1024 ->
  Float.lt_int (kb b) max_size_kb = true.
Proof.
  intros Hb Hlt. now apply FloatFacts.lt_int_bytes; [apply nbytes_range|].
Qed.

Lemma over_budget_ge b :
  nbytes b < 2 ^ 53 -> ~ nbytes b < max_size_kb * 1024 ->
  Float.lt_int (kb b) max_size_kb = false.
Proof.
  intros Hb Hlt.
  now apply FloatFacts.lt_int_bytes_false; [apply nbytes_range|].
Qed.

Lemma over_budget_rejected img q :
  over_budget img max_size_kb q -> rejected img max_size_kb q.
Proof.
  intros (b & Hb & Hsz & Hover). exists b. split; [exact Hb|].
  now apply over_budget_ge.
Qed.

(** An accepting run of the stages is an accepting run of the whole. *)
Lemma accepted_whole b evs :
  accepted (mkWorld (<[backup := b0]> (delete input (files w)))
                    (trace w ++ [EvOpen input b0; EvRename input backup]))
           input backup b evs
           (stages (normalize img0) input backup max_size_kb
              (mkWorld (<[backup := b0]> (delete input (files w)))
                       (trace w ++ [EvOpen input b0;
                                    EvRename input backup]))) ->
  accepted w input backup b
           (EvOpen input b0 :: EvRename input backup :: evs)
           (compress_image input max_size_kb w).
Proof.
  rewrite (compress_image_stages _ _ _ _ _ _ Hfile Hdec Hbackup).
  intros (Hr & Ht & Hin & Hbk & Hfr). cbn [files trace] in *.
  split; [exact Hr|]. split; [|split; [exact Hin|split; [exact Hbk|]]].
  - rewrite Ht, <- app_assoc. reflexivity.
  - intros p Hp1 Hp2. rewrite (Hfr p Hp1 Hp2). cbn.
    rewrite lookup_insert_ne by done. now apply lookup_delete_ne.
Qed.

(** The run that stops at the lossless stage. *)
Lemma lossless_accepted bpng :
  encode (PNG true 9) (normalize img0) = Written bpng ->
  nbytes bpng < 2 ^ 53 ->
  nbytes bpng < max_size_kb * 1024 ->
  accepted w input backup bpng
    [EvOpen input b0; EvRename input backup;
     EvSave input (PNG true 9) (normalize img0); EvUnlink backup]
    (compress_image input max_size_kb w).
Proof.
intros Hpng Hsz Hlt.
pose proof (PathlibFacts.with_suffix_backup_ne _ _ Hbackup) as Hne.
apply accepted_whole.
apply (stages_lossless input backup (normalize img0) max_size_kb Hne
         bpng b0); [exact Hpng| |apply lookup_insert_eq].
now apply under_budget_lt.
Qed.

End Accepting.

Import Toy.

(** * The claims *)

(** C2.  When the lossless PNG re-encode of the normalized image is strictly
    below [max_size_kb * 1024] bytes, [compress_image] returns at the
    lossless stage: after opening the input and moving it to the backup it
    makes the PNG encode and unlinks the backup, with no JPEG encode at all,
    and the file it leaves at the input path is that PNG. *)
Theorem lossless_stage_accepts `{PIL} (w : World) (input backup : Path)
    (b0 : list byte) (img0 : Image) (max_size_kb : Z) (bpng : list byte) :
  files w !! input = Some b0 ->
  decode b0 = Some img0 ->
  Pathlib.with_suffix input ".backup.png" = Some backup ->
  encode (PNG true 9) (normalize img0) = Written bpng ->
  nbytes bpng < 2 ^ 53 ->
  nbytes bpng < max_size_kb * 1024 ->
  accepted w input backup bpng
    [EvOpen input b0; EvRename input backup;
     EvSave input (PNG true 9) (normalize img0); EvUnlink backup]
    (compress_image input max_size_kb w) /\
  jpeg_encodes (drop (length (trace w))
                  (trace (snd (compress_image input max_size_kb w)))) = [].
Proof.
  intros Hf Hd Hb Hpng Hsz Hlt.
  pose proof (lossless_accepted w input backup b0 img0 max_size_kb Hf Hd Hb
                bpng Hpng Hsz Hlt) as Hacc.
  split; [exact Hacc|].
  destruct Hacc as (_ & -> & _). now rewrite drop_app_length.
Qed.

Lemma lossless_stage_accepts_witness :
  accepted (world_with banner photo) banner banner_backup (png_of photo)
    [EvOpen banner (png_of photo); EvRename banner banner_backup;
     EvSave banner (PNG true 9) (normalize photo); EvUnlink banner_backup]
    (compress_image banner 2 (world_with banner photo)) /\
  jpeg_encodes (drop (length (trace (world_with banner photo)))
                  (trace (snd (compress_image banner 2
                                 (world_with banner photo))))) = [].
Proof.
  apply (lossless_stage_accepts (world_with banner photo) banner banner_backup
           (png_of photo) photo 2 (png_of photo)).
  - reflexivity.
  - reflexivity.
  - reflexivity.
  - reflexivity.
  - reflexivity.
  - reflexivity.
Defined.






(** C8.  When every attempt, the downscaled one included, writes a file
    that is not strictly below the budget, [compress_image] still returns
    normally: the backup is unlinked and the result is the input path with
    the size of the oversized file, the same shape of result as when the
    budget is met. *)
Theorem oversized_result_returned `{PIL} (w : World) (input backup : Path)
    (b0 : list byte) (img0 : Image) (max_size_kb : Z) (bpng : list byte)
    (small : Image) (bfinal : list byte) :
  files w !! input = Some b0 ->
  decode b0 = Some img0 ->
  Pathlib.with_suffix input ".backup.png" = Some backup ->
  encode (PNG true 9) (normalize img0) = Written bpng ->
  nbytes bpng < 2 ^ 53 ->
  ~ nbytes bpng < max_size_kb * 1024 ->
  Forall (over_budget (normalize img0) max_size_kb) qualities ->
  downscaled (normalize img0) = inr small ->
  encode (JPEG 85 true) small = Written bfinal ->
  nbytes bfinal < 2 ^ 53 ->
  ~ nbytes bfinal < max_size_kb * 1024 ->
  fst (compress_image input max_size_kb w) = Ok (input, kb bfinal) /\
  Float.lt_int (kb bfinal) max_size_kb = false /\
  files (snd (compress_image input max_size_kb w)) !! input = Some bfinal /\
  backup_removed backup (snd (compress_image input max_size_kb w))
    (drop (length (trace w))
       (trace (snd (compress_image input max_size_kb w)))).
Proof.
  intros Hf Hd Hb Hpng Hpsz Hpover Hall Hsmall Hfinal Hfsz Hfover.
  pose proof (PathlibFacts.with_suffix_backup_ne _ _ Hb) as Hne.
  assert (Hacc : accepted w input backup bfinal
            (EvOpen input b0 :: EvRename input backup
             :: EvSave input (PNG true 9) (normalize img0)
             :: attempts (normalize img0) input qualities
             ++ [EvOpen backup b0; EvSave input (JPEG 85 true) small;
                 EvUnlink backup])
            (compress_image input max_size_kb w)).
  { apply (accepted_whole w input backup b0 img0 max_size_kb Hf Hd Hb).
    apply (stages_downscale input backup (normalize img0) max_size_kb Hne
             bpng b0 img0 small bfinal); try assumption; try reflexivity.
    - now apply over_budget_ge.
    - eapply Forall_impl; [exact Hall|]. intros q'.
      apply over_budget_rejected.
    - apply lookup_insert_eq. }
  destruct Hacc as (Hr & Ht & Hin & Hgone & _).
  split; [exact Hr|]. split; [now apply over_budget_ge|].
  split; [exact Hin|]. split; [exact Hgone|].
  rewrite Ht, drop_app_length. reflexivity.
Qed.

Lemma oversized_result_returned_witness :
  fst (compress_image banner 1 (world_with banner poster))
  = Ok (banner, kb (jpeg_of 85 poster_small)) /\
  Float.lt_int (kb (jpeg_of 85 poster_small)) 1 = false /\
  files (snd (compress_image banner 1 (world_with banner poster))) !! banner
  = Some (jpeg_of 85 poster_small) /\
  backup_removed banner_backup
    (snd (compress_image banner 1 (world_with banner poster)))
    (drop (length (trace (world_with banner poster)))
       (trace (snd (compress_image banner 1 (world_with banner poster))))).
Proof.
  apply (oversized_result_returned (world_with banner poster) banner
           banner_backup (png_of poster) poster 1 (png_of poster)
           poster_small (jpeg_of 85 poster_small)).
  - reflexivity.
  - reflexivity.
  - reflexivity.
  - reflexivity.
  - reflexivity.
  - intros Hlt. discriminate Hlt.
  - repeat constructor;
      (eexists; split; [reflexivity|]; split; [reflexivity|];
       intros Hlt; discriminate Hlt).
  - reflexivity.
  - reflexivity.
  - reflexivity.
  - intros Hlt. discriminate Hlt.
Defined.

(** C9.  [main] exits with status 0 when [compress_image] returns normally;
    with status 1, and nothing else done, when the banner file is missing;
    and with status 1, after printing the traceback, when [compress_image]
    raises. *)
Theorem main_exit_status `{PIL} (banner_path : Path) (w : World) :
  (forall out w', compress_image banner_path 300 w = (Ok out, w') ->
                  main banner_path w = (Ok 0, w')) /\
  (files w !! banner_path = None -> main banner_path w = (Ok 1, w)) /\
  (forall e w', is_Some (files w !! banner_path) ->
                compress_image banner_path 300 w = (Raise e, w') ->
                main banner_path w = (Ok 1, record (EvTraceback e) w')).
Proof.
  split; [|split].
  - intros out w' Hrun.
    destruct (files w !! banner_path) as [b|] eqn:Hf.
    + unfold main, bind at 1, Path_exists. rewrite Hf.
      rewrite bool_decide_eq_true_2 by eauto. cbn [negb].
      unfold try_except, bind. now rewrite Hrun.
    + unfold compress_image, bind, Image_open in Hrun. rewrite Hf in Hrun.
      discriminate.
  - intros Hf. unfold main, bind at 1, Path_exists. rewrite Hf.
    rewrite bool_decide_eq_false_2 by (intros [? ?]; discriminate).
    reflexivity.
  - intros e w' Hf Hrun. unfold main, bind at 1, Path_exists.
    rewrite bool_decide_eq_true_2 by exact Hf. cbn [negb].
    unfold try_except, bind at 1. rewrite Hrun. reflexivity.
Qed.

Lemma main_exit_status_witness :
  main banner (world_with banner photo)
  = (Ok 0, snd (compress_image banner 300 (world_with banner photo))) /\
  main banner empty_world = (Ok 1, empty_world) /\
  main banner garbage_world
  = (Ok 1, record (EvTraceback (UnidentifiedImageError banner)) garbage_world).
Proof.
  split; [|split].
  - apply (proj1 (main_exit_status banner (world_with banner photo))
             (banner, kb (png_of photo))).
    reflexivity.
  - apply (proj1 (proj2 (main_exit_status banner empty_world))).
    reflexivity.
  - apply (proj2 (proj2 (main_exit_status banner garbage_world))).
    + exists []. reflexivity.
    + reflexivity.
Defined.

(** C4.  In every run of [compress_image]: a normal return leaves no file
    at the backup path and has unlinked it exactly once; an exception
    raised after the rename to the backup leaves the backup in place,
    holding the original bytes; and when the input path does not exist the
    run raises with the world as it was, so no backup is created. *)
Theorem backup_lifecycle `{PIL} (input : Path) (max_size_kb : Z) (w : World) :
  (forall out,
      fst (compress_image input max_size_kb w) = Ok out ->
      exists backup,
        Pathlib.with_suffix input ".backup.png" = Some backup /\
        backup_removed backup (snd (compress_image input max_size_kb w))
          (drop (length (trace w))
             (trace (snd (compress_image input max_size_kb w))))) /\
  (forall e backup,
      fst (compress_image input max_size_kb w) = Raise e ->
      EvRename input backup
        ∈ drop (length (trace w))
            (trace (snd (compress_image input max_size_kb w))) ->
      is_Some (files w !! input) /\
      files (snd (compress_image input max_size_kb w)) !! backup
      = files w !! input /\
      unlinks (drop (length (trace w))
                 (trace (snd (compress_image input max_size_kb w)))) = []) /\
  (files w !! input = None ->
   compress_image input max_size_kb w = (Raise (FileNotFoundError input), w)).
Proof.
  destruct (compress_image input max_size_kb w) as [r w'] eqn:Hrun.
  cbn [fst snd].
  destruct (compress_image_early _ _ _ _ _ Hrun)
    as [(b0 & img0 & bk & Hf & Hd & Hb)
       |(e0 & -> & Hfiles & [Ht|(b0 & Hf & Ht)])].
  - destruct (compress_image_shape _ _ _ _ _ _ _ _ Hf Hd Hb Hrun)
      as (evs & Ht & Hall & _ & Hpost).
    rewrite Ht, drop_app_length, !unlinks_cons.
    split; [|split].
    + intros out ->. destruct out as [out sz]. destruct Hpost as (_ & Hg & Hu).
      exists bk. split; [exact Hb|]. split; [exact Hg|].
      now rewrite !unlinks_cons.
    + intros e backup -> Hin. destruct Hpost as [Hk Hu].
      apply elem_of_cons in Hin as [Hin|Hin]; [discriminate|].
      apply elem_of_cons in Hin as [Hin|Hin].
      * injection Hin as <-. rewrite Hf. eauto.
      * rewrite Forall_forall in Hall. destruct (Hall _ Hin).
    + intros Hnone. rewrite Hnone in Hf. discriminate.
  - rewrite Ht, drop_all. split; [|split].
    + discriminate.
    + intros e backup _ Hin. now apply elem_of_nil in Hin.
    + intros Hnone. unfold compress_image, bind, Image_open in Hrun.
      rewrite Hnone in Hrun. now rewrite <- Hrun.
  - rewrite Ht, drop_app_length. split; [|split].
    + discriminate.
    + intros e backup _ Hin. apply list_elem_of_singleton in Hin.
      discriminate.
    + intros Hnone. rewrite Hnone in Hf. discriminate.
Qed.

Lemma backup_lifecycle_witness :
  backup_removed banner_backup
    (snd (compress_image banner 2 (world_with banner photo)))
    (drop (length (trace (world_with banner photo)))
       (trace (snd (compress_image banner 2 (world_with banner photo))))) /\
  files (snd (compress_image banner 1 (world_with banner stencil)))
    !! banner_backup = Some (png_of stencil) /\
  compress_image banner 1 empty_world
  = (Raise (FileNotFoundError banner), empty_world).
Proof.
  split; [|split].
  - assert (Hok : fst (compress_image banner 2 (world_with banner photo))
                  = Ok (banner, kb (png_of photo)))
      by (vm_compute; reflexivity).
    pose proof (proj1 (backup_lifecycle banner 2 (world_with banner photo))
                  (banner, kb (png_of photo)) Hok) as Hex.
    destruct Hex as (bk & Hbk & Hrem).
    vm_compute in Hbk. injection Hbk as <-. exact Hrem.
  - assert (Hin : EvRename banner banner_backup
                  ∈ drop (length (trace (world_with banner stencil)))
                      (trace (snd (compress_image banner 1
                                     (world_with banner stencil))))).
    { vm_compute. apply list_elem_of_In. right. left. reflexivity. }
    assert (Hr : fst (compress_image banner 1 (world_with banner stencil))
                 = Raise OSError) by (vm_compute; reflexivity).
    pose proof (proj1 (proj2 (backup_lifecycle banner 1
                                (world_with banner stencil)))
                  OSError banner_backup Hr Hin) as Hk.
    destruct Hk as (_ & Hkept & _). exact Hkept.
  - apply (proj2 (proj2 (backup_lifecycle banner 1 empty_world))).
    reflexivity.
Defined.

(** C10.  In every run of [compress_image] on a file holding [b0]: every
    decode reads the bytes [b0] (at the input path, or at the backup the
    file was moved to), and every encode attempt takes the normalized
    decoding of [b0] or the downscale of it; no attempt encodes what an
    earlier attempt wrote. *)
Theorem encodes_come_from_original `{PIL} (input : Path) (max_size_kb : Z)
    (w : World) (b0 : list byte) (img0 : Image) :
  files w !! input = Some b0 ->
  decode b0 = Some img0 ->
  (forall p b,
      EvOpen p b ∈ drop (length (trace w))
                     (trace (snd (compress_image input max_size_kb w))) ->
      b = b0) /\
  (forall p params img,
      EvSave p params img
        ∈ drop (length (trace w))
            (trace (snd (compress_image input max_size_kb w))) ->
      img = normalize img0 \/ downscaled (normalize img0) = inr img).
Proof.
  intros Hf Hd.
  destruct (compress_image input max_size_kb w) as [r w'] eqn:Hrun.
  cbn [fst snd].
  destruct (compress_image_early _ _ _ _ _ Hrun)
    as [(b0' & img0' & bk & Hf' & Hd' & Hb)
       |(e0 & -> & Hfiles & [Ht|(b0' & Hf' & Ht)])].
  - rewrite Hf in Hf'. injection Hf' as <-.
    rewrite Hd in Hd'. injection Hd' as <-.
    destruct (compress_image_shape _ _ _ _ _ _ _ _ Hf Hd Hb Hrun)
      as (evs & Ht & Hall & _).
    rewrite Ht, drop_app_length. rewrite Forall_forall in Hall.
    split.
    + intros p b Hin.
      apply elem_of_cons in Hin as [[= _ ->]|Hin]; [reflexivity|].
      apply elem_of_cons in Hin as [Hin|Hin]; [discriminate|].
      now destruct (Hall _ Hin).
    + intros p params img Hin.
      apply elem_of_cons in Hin as [Hin|Hin]; [discriminate|].
      apply elem_of_cons in Hin as [Hin|Hin]; [discriminate|].
      now destruct (Hall _ Hin).
  - rewrite Ht, drop_all.
    split; [intros p b Hin|intros p params img Hin];
      now apply elem_of_nil in Hin.
  - rewrite Hf in Hf'. injection Hf' as <-.
    rewrite Ht, drop_app_length. split.
    + intros p b Hin. apply list_elem_of_singleton in Hin.
      now injection Hin as _ ->.
    + intros p params img Hin. apply list_elem_of_singleton in Hin.
      discriminate.
Qed.

Lemma encodes_come_from_original_witness :
  (forall p b,
      EvOpen p b ∈ drop (length (trace (world_with banner poster)))
                     (trace (snd (compress_image banner 1
                                    (world_with banner poster)))) ->
      b = png_of poster) /\
  (forall p params img,
      EvSave p params img
        ∈ drop (length (trace (world_with banner poster)))
            (trace (snd (compress_image banner 1
                           (world_with banner poster)))) ->
      img = normalize poster \/ downscaled (normalize poster) = inr img).
Proof.
  apply (encodes_come_from_original banner 1 (world_with banner poster)
           (png_of poster) poster).
  - reflexivity.
  - reflexivity.
Defined.

(** C5 as stated fails: the suffix of the backup is the literal
    [.backup.png], so a file named [og-banner.jpg] is moved to
    [og-banner.backup.png], not to [og-banner.backup.jpg]. *)
Lemma backup_keeps_extension_counterexample :
  Pathlib.with_suffix photo_jpg ".backup.png"
  = Some ["public"; "og-banner.backup.png"] /\
  EvRename photo_jpg ["public"; "og-banner.backup.png"]
    ∈ trace (snd (compress_image photo_jpg 2 (world_with photo_jpg photo))) /\
  EvRename photo_jpg ["public"; "og-banner.backup.jpg"]
    ∉ trace (snd (compress_image photo_jpg 2 (world_with photo_jpg photo))).
Proof.
  split; [reflexivity|]. split.
  - vm_compute. apply list_elem_of_In. right. left. reflexivity.
  - vm_compute. intros Hin. apply list_elem_of_In in Hin.
    repeat (destruct Hin as [Hin|Hin]; [discriminate Hin|]). exact Hin.
Qed.

(** C5, amended.  For a file named [s.e], of suffix [.e], the backup path
    is the same directory with the name [s.backup.png], whatever the
    extension [e];
    the run opens the input and then renames it to that path before any
    encode, and never renames again; and that rename moves the file: the
    input path is left without a file and the backup holds its bytes. *)
Theorem backup_renamed_first `{PIL} (w : World) (dir : Path) (s e : string)
    (max_size_kb : Z) (b0 : list byte) (img0 : Image) :
  Pathlib.lstrip "." s <> EmptyString ->
  Pathlib.rfind "." e = None ->
  files w !! (dir ++ [String.append s (String "." e)]) = Some b0 ->
  decode b0 = Some img0 ->
  Pathlib.suffix (dir ++ [String.append s (String "." e)]) = String "." e /\
  Pathlib.with_suffix (dir ++ [String.append s (String "." e)]) ".backup.png"
  = Some (dir ++ [String.append s ".backup.png"]) /\
  (exists evs,
      trace (snd (compress_image (dir ++ [String.append s (String "." e)])
                    max_size_kb w))
      = trace w
        ++ EvOpen (dir ++ [String.append s (String "." e)]) b0
        :: EvRename (dir ++ [String.append s (String "." e)])
                    (dir ++ [String.append s ".backup.png"])
        :: evs /\
      forall src dst, EvRename src dst ∉ evs) /\
  (forall w1 b,
      files w1 !! (dir ++ [String.append s (String "." e)]) = Some b ->
      exists w2,
        Path_rename (dir ++ [String.append s (String "." e)])
                    (dir ++ [String.append s ".backup.png"]) w1
        = (Ok tt, w2) /\
        files w2 !! (dir ++ [String.append s (String "." e)]) = None /\
        files w2 !! (dir ++ [String.append s ".backup.png"]) = Some b).
Proof.
  intros Hs He Hf Hd.
  pose proof (PathlibFacts.with_suffix_backup_ext dir s e Hs He) as Hb.
  pose proof (PathlibFacts.with_suffix_backup_ne _ _ Hb) as Hne.
  split.
  { unfold Pathlib.suffix, Pathlib.name. rewrite PathlibFacts.last_snoc.
    now apply PathlibFacts.suffix_of_ext. }
  split; [exact Hb|]. split.
  - destruct (compress_image _ max_size_kb w) as [r w'] eqn:Hrun.
    destruct (compress_image_shape _ _ _ _ _ _ _ _ Hf Hd Hb Hrun)
      as (evs & Ht & Hall & _).
    exists evs. split; [exact Ht|].
    intros src dst Hin. rewrite Forall_forall in Hall.
    exact (Hall _ Hin).
  - intros w1 b Hb1. eexists. split; [exact (rename_run _ _ _ _ Hb1)|].
    cbn [files]. split.
    + rewrite lookup_insert_ne by exact Hne. apply lookup_delete_eq.
    + apply lookup_insert_eq.
Qed.

Lemma backup_renamed_first_witness :
  Pathlib.suffix (["public"] ++ [String.append "og-banner" (String "." "jpg")])
  = String "." "jpg" /\
  Pathlib.with_suffix (["public"] ++ [String.append "og-banner" (String "." "jpg")])
    ".backup.png"
  = Some (["public"] ++ [String.append "og-banner" ".backup.png"]) /\
  (exists evs,
      trace (snd (compress_image
                    (["public"] ++ [String.append "og-banner" (String "." "jpg")])
                    2 (world_with photo_jpg photo)))
      = trace (world_with photo_jpg photo)
        ++ EvOpen (["public"] ++ [String.append "og-banner" (String "." "jpg")])
                  (png_of photo)
        :: EvRename (["public"] ++ [String.append "og-banner" (String "." "jpg")])
                    (["public"] ++ [String.append "og-banner" ".backup.png"])
        :: evs /\
      forall src dst, EvRename src dst ∉ evs) /\
  (forall w1 b,
      files w1 !! (["public"] ++ [String.append "og-banner" (String "." "jpg")])
      = Some b ->
      exists w2,
        Path_rename (["public"] ++ [String.append "og-banner" (String "." "jpg")])
                    (["public"] ++ [String.append "og-banner" ".backup.png"]) w1
        = (Ok tt, w2) /\
        files w2 !! (["public"] ++ [String.append "og-banner" (String "." "jpg")])
        = None /\
        files w2 !! (["public"] ++ [String.append "og-banner" ".backup.png"])
        = Some b).
Proof.
  apply (backup_renamed_first (world_with photo_jpg photo) ["public"]
           "og-banner" "jpg" 2 (png_of photo) photo).
  - discriminate.
  - reflexivity.
  - vm_compute. reflexivity.
  - reflexivity.
Defined.

(** C6 as stated fails: the test is [img.mode == 'RGBA'], so an image of
    mode LA, which carries an alpha band, is handed to the encoder as it
    is. *)
Lemma alpha_always_flattened_counterexample :
  has_alpha (mode stencil) = true /\
  flatten stencil = Ok stencil /\
  EvSave banner (PNG true 9) stencil
    ∈ trace (snd (compress_image banner 1 (world_with banner stencil))).
Proof.
  split; [reflexivity|]. split; [reflexivity|].
  vm_compute. apply list_elem_of_In. right. right. left. reflexivity.
Qed.

(** C6, amended.  An image whose mode is RGBA is replaced by an RGB image
    of the same size: a white (255, 255, 255) image with the original
    pasted through its alpha band; an image of any other mode is left as it
    is.  Doing it again changes nothing, and in every run each encode
    attempt takes the image so normalized, or its downscale. *)
Theorem flatten_rgba_only `{PIL} (img : Image) :
  (mode img = "RGBA" ->
   flatten img
   = Ok (Image_paste (Image_new "RGB" (size img) (255, 255, 255)) img
           (alpha_band img))) /\
  (mode img <> "RGBA" -> flatten img = Ok img) /\
  (forall flat,
      flatten img = Ok flat ->
      mode flat <> "RGBA" /\ size flat = size img /\ flatten flat = Ok flat) /\
  (forall input max_size_kb w b0,
      files w !! input = Some b0 ->
      decode b0 = Some img ->
      forall p params i,
        EvSave p params i
          ∈ drop (length (trace w))
              (trace (snd (compress_image input max_size_kb w))) ->
        exists flat,
          flatten img = Ok flat /\ (i = flat \/ downscaled flat = inr i)).
Proof.
  split; [|split; [|split]].
  - intros Hm. rewrite flatten_normalize. unfold normalize.
    now rewrite Hm.
  - intros Hm. rewrite flatten_normalize. unfold normalize.
    now destruct (String.eqb_spec (mode img) "RGBA").
  - intros flat. rewrite flatten_normalize. intros [= <-].
    split; [apply normalize_mode|]. split; [apply normalize_size|].
    now rewrite flatten_normalize, normalize_idem.
  - intros input max_size_kb w b0 Hf Hd p params i Hin.
    exists (normalize img). split; [apply flatten_normalize|].
    destruct (compress_image input max_size_kb w) as [r w'] eqn:Hrun.
    cbn [snd] in Hin.
    destruct (compress_image_early _ _ _ _ _ Hrun)
      as [(b0' & img0' & bk & Hf' & Hd' & Hb)
         |(e0 & -> & Hfiles & [Ht|(b0' & Hf' & Ht)])].
    + rewrite Hf in Hf'. injection Hf' as <-.
      rewrite Hd in Hd'. injection Hd' as <-.
      destruct (compress_image_shape _ _ _ _ _ _ _ _ Hf Hd Hb Hrun)
        as (evs & Ht & Hall & _).
      rewrite Ht, drop_app_length in Hin. rewrite Forall_forall in Hall.
      apply elem_of_cons in Hin as [Hin|Hin]; [discriminate|].
      apply elem_of_cons in Hin as [Hin|Hin]; [discriminate|].
      now destruct (Hall _ Hin).
    + rewrite Ht, drop_all in Hin. now apply elem_of_nil in Hin.
    + rewrite Ht, drop_app_length in Hin.
      apply list_elem_of_singleton in Hin. discriminate.
Qed.

Lemma flatten_rgba_only_witness :
  flatten (flat_image "RGBA" 20 20 x07)
  = Ok (Image_paste (Image_new "RGB" (20, 20) (255, 255, 255))
          (flat_image "RGBA" 20 20 x07)
          (alpha_band (flat_image "RGBA" 20 20 x07))) /\
  flatten stencil = Ok stencil /\
  (mode photo <> "RGBA" /\ size photo = size photo /\
   flatten photo = Ok photo) /\
  (exists flat,
      flatten poster = Ok flat /\
      (poster_small = flat \/ downscaled flat = inr poster_small)).
Proof.
  split; [|split; [|split]].
  - apply (proj1 (flatten_rgba_only (flat_image "RGBA" 20 20 x07))).
    reflexivity.
  - apply (proj1 (proj2 (flatten_rgba_only stencil))). discriminate.
  - apply (proj1 (proj2 (proj2 (flatten_rgba_only photo)))). reflexivity.
  - assert (Hf : files (world_with banner poster) !! banner
                 = Some (png_of poster)) by reflexivity.
    assert (Hd : decode (png_of poster) = Some poster) by reflexivity.
    apply (proj2 (proj2 (proj2 (flatten_rgba_only poster)))
             banner 1 (world_with banner poster) (png_of poster)
             Hf Hd banner (JPEG 85 true)).
    vm_compute. apply list_elem_of_In. do 10 right. left. reflexivity.
Defined.

(** C7 as stated fails: a first run that accepted the JPEG of quality 75,
    a file under the budget, leaves a file whose PNG re-encode is over the
    budget again, so the second run goes down the quality ladder and
    re-encodes the already lossy image. *)
Lemma second_run_lossless_counterexample :
  fst (compress_image banner 1 (world_with banner photo))
  = Ok (banner, kb (jpeg_of 75 photo)) /\
  nbytes (jpeg_of 75 photo) < 1 * 1024 /\
  jpeg_encodes
    (drop (length (trace (snd (compress_image banner 1
                                 (world_with banner photo)))))
       (trace (snd (compress_image banner 1
                      (snd (compress_image banner 1
                              (world_with banner photo)))))))
  = [95; 85; 75].
Proof.
  split; [vm_compute; reflexivity|]. split; [reflexivity|].
  vm_compute. reflexivity.
Qed.

(** C7, amended.  When the first run accepted at the lossless stage, and
    decoding that PNG gives back the image that was encoded, a second run
    on the output accepts at the lossless stage too, with no JPEG encode,
    and leaves the same file. *)
Theorem second_run_after_lossless `{PIL} (w : World) (input backup : Path)
    (b0 : list byte) (img0 : Image) (max_size_kb : Z) (bpng : list byte) :
  files w !! input = Some b0 ->
  decode b0 = Some img0 ->
  Pathlib.with_suffix input ".backup.png" = Some backup ->
  encode (PNG true 9) (normalize img0) = Written bpng ->
  nbytes bpng < 2 ^ 53 ->
  nbytes bpng < max_size_kb * 1024 ->
  decode bpng = Some (normalize img0) ->
  accepted (snd (compress_image input max_size_kb w)) input backup bpng
    [EvOpen input bpng; EvRename input backup;
     EvSave input (PNG true 9) (normalize img0); EvUnlink backup]
    (compress_image input max_size_kb
       (snd (compress_image input max_size_kb w))).
Proof.
  intros Hf Hd Hb Hpng Hsz Hlt Hround.
  destruct (lossless_accepted w input backup b0 img0 max_size_kb Hf Hd Hb
              bpng Hpng Hsz Hlt) as (_ & _ & Hf1 & _).
  pose proof (lossless_accepted _ input backup bpng (normalize img0)
                max_size_kb Hf1 Hround Hb bpng) as Hacc.
  rewrite normalize_idem in Hacc. now apply Hacc.
Qed.

Lemma second_run_after_lossless_witness :
  accepted (snd (compress_image banner 2 (world_with banner photo)))
    banner banner_backup (png_of photo)
    [EvOpen banner (png_of photo); EvRename banner banner_backup;
     EvSave banner (PNG true 9) (normalize photo); EvUnlink banner_backup]
    (compress_image banner 2
       (snd (compress_image banner 2 (world_with banner photo)))).
Proof.
  apply (second_run_after_lossless (world_with banner photo) banner
           banner_backup (png_of photo) photo 2 (png_of photo)).
  - reflexivity.
  - reflexivity.
  - reflexivity.
  - reflexivity.
  - reflexivity.
  - reflexivity.
  - reflexivity.
Defined.

(** * Further properties of the pipeline *)

(** ** What a run attempts and what it returns *)

Section Attempts.
Context `{PIL}.
Variables (input backup : Path) (img : Image) (max_size_kb : Z).
Hypothesis Hne : backup <> input.

Lemma save_ok_inv i p params w w1 :
  Image_save i p params w = (Ok tt, w1) ->
  exists b, encode params i = Written b /\
            files w1 = <[p := b]> (files w) /\
            trace w1 = trace w ++ [EvSave p params i].
Proof.
  unfold Image_save. destruct (encode params i) as [b|e partial].
  - intros [= <-]. now exists b.
  - destruct (files w !! p); discriminate.
Qed.

Lemma size_ok_inv p w sz w1 :
  size_kb p w = (Ok sz, w1) ->
  w1 = w /\ exists b, files w !! p = Some b /\ sz = kb b.
Proof.
  unfold size_kb, bind, st_size, ret.
  destruct (files w !! p) as [b|]; [|discriminate].
  intros [= <- <-]. split; [reflexivity|]. now exists b.
Qed.

Lemma unlink_any p w r w1 :
  Path_unlink p w = (r, w1) ->
  (r = Ok tt /\ files w1 = delete p (files w) /\
   trace w1 = trace w ++ [EvUnlink p]) \/
  (exists e, r = Raise e /\ w1 = w).
Proof.
  unfold Path_unlink. destruct (files w !! p); intros [= <- <-].
  - now left.
  - right. eauto.
Qed.

Lemma open_any p w r w1 :
  Image_open p w = (r, w1) ->
  (exists i b, r = Ok i /\ files w1 = files w /\
               trace w1 = trace w ++ [EvOpen p b]) \/
  (exists e, r = Raise e /\ w1 = w).
Proof.
  unfold Image_open. destruct (files w !! p) as [b|].
  - destruct (decode b) as [i|]; intros [= <- <-].
    + left. now exists i, b.
    + right. eauto.
  - intros [= <- <-]. right. eauto.
Qed.

Lemma jpeg_encodes_app evs1 evs2 :
  jpeg_encodes (evs1 ++ evs2) = jpeg_encodes evs1 ++ jpeg_encodes evs2.
Proof. unfold jpeg_encodes. now rewrite omap_app. Qed.

(** The quality loop attempts the qualities in order and stops at the
    first file it accepts. *)
Lemma loop_attempts qs w r w' :
  quality_loop img input backup max_size_kb qs w = (r, w') ->
  exists evs, trace w' = trace w ++ evs /\
    match r with
    | Ok None => jpeg_encodes evs = qs
    | Ok (Some (out, sz)) =>
        (exists n, jpeg_encodes evs = take n qs) /\ out = input /\
        exists b, files w' !! input = Some b /\ sz = kb b /\
                  Float.lt_int sz max_size_kb = true
    | Raise _ => exists n, jpeg_encodes evs = take n qs
    end.
Proof.
  revert w. induction qs as [|q qs IH]; intros w Hrun;
    cbn [quality_loop] in Hrun.
  - injection Hrun as <- <-. exists []. split; [now rewrite app_nil_r|].
    reflexivity.
  - apply bind_inv in Hrun as [([] & w1 & Hsave & Hrun)|(e & Hsave & ->)].
    2: { apply save_inv in Hsave as (Ht & _). eexists. split; [exact Ht|].
         now exists 1%nat. }
    apply save_ok_inv in Hsave as (b & Hb & Hf1 & Ht1).
    apply bind_inv in Hrun as [(sz & w2 & Hsz & Hrun)|(e & Hsz & ->)].
    2: { apply size_inv in Hsz as ->. eexists. split; [exact Ht1|].
         now exists 1%nat. }
    apply size_ok_inv in Hsz as (-> & b' & Hb' & ->).
    rewrite Hf1, lookup_insert_eq in Hb'. injection Hb' as <-.
    destruct (Float.lt_int (kb b) max_size_kb) eqn:Hlt.
    + apply bind_inv in Hrun as [([] & w3 & Hun & Hrun)|(e & Hun & ->)];
        apply unlink_any in Hun as [(Hr & Hf3 & Ht3)|(e' & He' & ->)];
        try congruence.
      * injection Hrun as <- <-.
        exists [EvSave input (JPEG q true) img; EvUnlink backup].
        split; [now rewrite Ht3, Ht1, <- app_assoc|].
        split; [now exists 1%nat|]. split; [reflexivity|].
        exists b. split; [|now split].
        rewrite Hf3, Hf1, lookup_delete_ne by exact Hne.
        apply lookup_insert_eq.
      * eexists. split; [exact Ht1|]. now exists 1%nat.
    + destruct (IH w1 Hrun) as (evs & Ht & Hpost).
      exists (EvSave input (JPEG q true) img :: evs).
      split; [now rewrite Ht, Ht1, <- app_assoc|].
      destruct r as [[[out sz]|]|e].
      * destruct Hpost as ((n & Hn) & Hrest). split; [|exact Hrest].
        exists (S n). cbn. now rewrite <- Hn.
      * cbn. now rewrite <- Hpost.
      * destruct Hpost as (n & Hn). exists (S n). cbn. now rewrite <- Hn.
Qed.

(** The last stage makes at most one encode, at quality 85. *)
Lemma downscale_attempts w r w' :
  downscale_stage input backup w = (r, w') ->
  exists evs, trace w' = trace w ++ evs /\
    (jpeg_encodes evs = [] \/ jpeg_encodes evs = [85]) /\
    match r with
    | Ok (out, sz) =>
        out = input /\ jpeg_encodes evs = [85] /\
        exists b, files w' !! input = Some b /\ sz = kb b
    | Raise _ => True
    end.
Proof.
  intros Hrun. unfold downscale_stage in Hrun.
  apply bind_inv in Hrun as [(i & w0 & Hopen & Hrun)|(e & Hopen & ->)];
    apply open_any in Hopen as [(i' & b0 & Hi & Hf0 & Ht0)|(e' & He' & ->)];
    try congruence.
  2: { exists []. split; [now rewrite app_nil_r|]. split; [now left|exact I]. }
  unfold lift at 1 in Hrun. rewrite flatten_normalize in Hrun.
  unfold bind at 1 in Hrun.
  destruct (Image_resize (normalize i) _ LANCZOS) as [e|small].
  { injection Hrun as <- <-. eexists. split; [exact Ht0|].
    split; [now left|exact I]. }
  apply bind_inv in Hrun as [([] & w1 & Hsave & Hrun)|(e & Hsave & ->)].
  2: { apply save_inv in Hsave as (Ht1 & _).
       exists [EvOpen backup b0; EvSave input (JPEG 85 true) small].
       split; [now rewrite Ht1, Ht0, <- app_assoc|].
       split; [now right|exact I]. }
  apply save_ok_inv in Hsave as (b & Hb & Hf1 & Ht1).
  apply bind_inv in Hrun as [(sz & w2 & Hsz & Hrun)|(e & Hsz & ->)].
  2: { apply size_inv in Hsz as ->.
       exists [EvOpen backup b0; EvSave input (JPEG 85 true) small].
       split; [now rewrite Ht1, Ht0, <- app_assoc|].
       split; [now right|exact I]. }
  apply size_ok_inv in Hsz as (-> & b' & Hb' & ->).
  rewrite Hf1, lookup_insert_eq in Hb'. injection Hb' as <-.
  apply bind_inv in Hrun as [([] & w3 & Hun & Hrun)|(e & Hun & ->)];
    apply unlink_any in Hun as [(Hr & Hf3 & Ht3)|(e' & He' & ->)];
    try congruence.
  - injection Hrun as <- <-.
    exists [EvOpen backup b0; EvSave input (JPEG 85 true) small;
            EvUnlink backup].
    split; [now rewrite Ht3, Ht1, Ht0, <- !app_assoc|].
    split; [now right|]. split; [reflexivity|]. split; [reflexivity|].
    exists b. split; [|reflexivity].
    rewrite Hf3, Hf1, lookup_delete_ne by exact Hne.
    apply lookup_insert_eq.
  - exists [EvOpen backup b0; EvSave input (JPEG 85 true) small].
    split; [now rewrite Ht1, Ht0, <- app_assoc|].
    split; [now right|exact I].
Qed.

(** The stages: the JPEG encodes are a prefix of the ladder, or the whole
    ladder followed by the encode at 85; a normal return has left a file at
    the input path, reports its size, and that size passed the budget test
    unless the last stage was reached. *)
Lemma stages_attempts w r w' :
  stages img input backup max_size_kb w = (r, w') ->
  exists evs, trace w' = trace w ++ evs /\
    ((exists n, jpeg_encodes evs = take n qualities) \/
     jpeg_encodes evs = qualities ++ [85]) /\
    match r with
    | Ok (out, sz) =>
        out = input /\
        exists b, files w' !! input = Some b /\ sz = kb b /\
                  (Float.lt_int sz max_size_kb = true \/
                   jpeg_encodes evs = qualities ++ [85])
    | Raise _ => True
    end.
Proof.
  intros Hrun. unfold stages in Hrun.
  apply bind_inv in Hrun as [([] & w1 & Hsave & Hrun)|(e & Hsave & ->)].
  2: { apply save_inv in Hsave as (Ht & _). eexists. split; [exact Ht|].
       split; [left; now exists 0%nat|exact I]. }
  apply save_ok_inv in Hsave as (b & Hb & Hf1 & Ht1).
  apply bind_inv in Hrun as [(sz & w2 & Hsz & Hrun)|(e & Hsz & ->)].
  2: { apply size_inv in Hsz as ->. eexists. split; [exact Ht1|].
       split; [left; now exists 0%nat|exact I]. }
  apply size_ok_inv in Hsz as (-> & b' & Hb' & ->).
  rewrite Hf1, lookup_insert_eq in Hb'. injection Hb' as <-.
  destruct (Float.lt_int (kb b) max_size_kb) eqn:Hlt.
  - apply bind_inv in Hrun as [([] & w3 & Hun & Hrun)|(e & Hun & ->)];
      apply unlink_any in Hun as [(Hr & Hf3 & Ht3)|(e' & He' & ->)];
      try congruence.
    + injection Hrun as <- <-.
      exists [EvSave input (PNG true 9) img; EvUnlink backup].
      split; [now rewrite Ht3, Ht1, <- app_assoc|].
      split; [left; now exists 0%nat|]. split; [reflexivity|].
      exists b. split; [|now split; [|left]].
      rewrite Hf3, Hf1, lookup_delete_ne by exact Hne.
      apply lookup_insert_eq.
    + eexists. split; [exact Ht1|]. split; [left; now exists 0%nat|exact I].
  - apply bind_inv in Hrun as [(o & w2 & Hloop & Hrun)|(e & Hloop & ->)];
      apply loop_attempts in Hloop as (evs & Ht2 & Hpost).
    2: { exists (EvSave input (PNG true 9) img :: evs).
         split; [now rewrite Ht2, Ht1, <- app_assoc|].
         split; [left; exact Hpost|exact I]. }
    destruct o as [[out sz]|].
    + injection Hrun as <- <-.
      exists (EvSave input (PNG true 9) img :: evs).
      split; [now rewrite Ht2, Ht1, <- app_assoc|].
      destruct Hpost as (Hn & -> & b1 & Hb1 & -> & Hlt1).
      split; [left; exact Hn|]. split; [reflexivity|].
      exists b1. split; [exact Hb1|]. split; [reflexivity|now left].
    + apply downscale_attempts in Hrun as (evs3 & Ht3 & Hj3 & Hpost3).
      exists ((EvSave input (PNG true 9) img :: evs) ++ evs3).
      split; [now rewrite Ht3, Ht2, Ht1, <- !app_assoc|].
      rewrite jpeg_encodes_app. change (jpeg_encodes (_ :: evs))
        with (jpeg_encodes evs). rewrite Hpost.
      split.
      * destruct Hj3 as [->| ->]; [left|now right].
        exists 6%nat. now rewrite app_nil_r.
      * destruct r as [[out sz]|e]; [|exact I].
        destruct Hpost3 as (-> & -> & b3 & Hb3 & ->).
        split; [reflexivity|]. exists b3.
        split; [exact Hb3|]. split; [reflexivity|now right].
Qed.

End Attempts.

Section WholeAttempts.
Context `{PIL}.

(** The same for the whole run, on the events it added to the trace. *)
Lemma compress_image_attempts input max_size_kb w r w' :
  compress_image input max_size_kb w = (r, w') ->
  ((exists n, jpeg_encodes (drop (length (trace w)) (trace w'))
              = take n qualities) \/
   jpeg_encodes (drop (length (trace w)) (trace w')) = qualities ++ [85]) /\
  match r with
  | Ok (out, sz) =>
      out = input /\
      exists b, files w' !! input = Some b /\ sz = kb b /\
                (Float.lt_int sz max_size_kb = true \/
                 jpeg_encodes (drop (length (trace w)) (trace w'))
                 = qualities ++ [85])
  | Raise _ => True
  end.
Proof.
  intros Hrun.
  destruct (compress_image_early _ _ _ _ _ Hrun)
    as [(b0 & img0 & bk & Hf & Hd & Hb)
       |(e0 & -> & Hfiles & [Ht|(b0 & Hf & Ht)])].
  - pose proof (PathlibFacts.with_suffix_backup_ne _ _ Hb) as Hne.
    rewrite (compress_image_stages _ _ _ _ _ _ Hf Hd Hb) in Hrun.
    apply (stages_attempts input bk (normalize img0) max_size_kb Hne)
      in Hrun.
    destruct Hrun as (evs & Ht & Hj & Hpost). cbn [trace] in Ht.
    rewrite Ht, <- app_assoc, drop_app_length.
    change (jpeg_encodes ([EvOpen input b0; EvRename input bk] ++ evs))
      with (jpeg_encodes evs).
    split; [exact Hj|exact Hpost].
  - rewrite Ht, drop_all. split; [left; now exists 0%nat|exact I].
  - rewrite Ht, drop_app_length. split; [left; now exists 0%nat|exact I].
Qed.

End WholeAttempts.

(** X1.  Whatever a run of [compress_image] does, it touches two paths
    only: every file at a path other than the input path and the backup
    path derived from it is afterwards as it was before. *)
Theorem other_files_untouched `{PIL} (input : Path) (max_size_kb : Z)
    (w : World) (p : Path) :
  p <> input ->
  Pathlib.with_suffix input ".backup.png" <> Some p ->
  files (snd (compress_image input max_size_kb w)) !! p = files w !! p.
Proof.
  intros Hp Hq.
  destruct (compress_image input max_size_kb w) as [r w'] eqn:Hrun.
  cbn [snd].
  destruct (compress_image_early _ _ _ _ _ Hrun)
    as [(b0 & img0 & bk & Hf & Hd & Hb)|(e0 & _ & -> & _)];
    [|reflexivity].
  destruct (compress_image_shape _ _ _ _ _ _ _ _ Hf Hd Hb Hrun)
    as (evs & _ & _ & Hfr & _).
  apply Hfr; [exact Hp|]. intros ->. now apply Hq.
Qed.

Lemma other_files_untouched_witness :
  files (snd (compress_image banner 1
                (mkWorld (<[photo_jpg := [x2a]]>
                            (files (world_with banner poster))) [])))
    !! photo_jpg
  = Some [x2a].
Proof.
  rewrite (other_files_untouched banner 1
             (mkWorld (<[photo_jpg := [x2a]]>
                         (files (world_with banner poster))) [])
             photo_jpg).
  - reflexivity.
  - discriminate.
  - vm_compute. discriminate.
Defined.

(** X2.  A file already at the backup path is overwritten without notice:
    the run returns the same result and leaves the same files and trace
    whatever was at the backup path before it started. *)
Theorem stale_backup_overwritten `{PIL} (w : World) (input backup : Path)
    (b0 stale : list byte) (img0 : Image) (max_size_kb : Z) :
  files w !! input = Some b0 ->
  decode b0 = Some img0 ->
  Pathlib.with_suffix input ".backup.png" = Some backup ->
  compress_image input max_size_kb
    (mkWorld (<[backup := stale]> (files w)) (trace w))
  = compress_image input max_size_kb w.
Proof.
  intros Hf Hd Hb.
  pose proof (PathlibFacts.with_suffix_backup_ne _ _ Hb) as Hne.
  assert (Hf' : files (mkWorld (<[backup := stale]> (files w)) (trace w))
                !! input = Some b0).
  { cbn. now rewrite lookup_insert_ne. }
  rewrite (compress_image_stages _ _ _ _ _ _ Hf' Hd Hb).
  rewrite (compress_image_stages _ _ _ _ _ _ Hf Hd Hb).
  cbn [files trace].
  rewrite delete_insert_ne by (intros E; now apply Hne).
  now rewrite insert_insert_eq.
Qed.

Lemma stale_backup_overwritten_witness :
  compress_image banner 1
    (mkWorld (<[banner_backup := [x2a]]> (files (world_with banner photo)))
             (trace (world_with banner photo)))
  = compress_image banner 1 (world_with banner photo).
Proof.
  apply (stale_backup_overwritten (world_with banner photo) banner
           banner_backup (png_of photo) [x2a] photo 1).
  - reflexivity.
  - reflexivity.
  - reflexivity.
Defined.

Lemma append_assoc (s t u : string) :
  String.append (String.append s t) u = String.append s (String.append t u).
Proof.
  induction s as [|a s IH]; [reflexivity|].
  rewrite !PathlibFacts.append_cons. now rewrite IH.
Qed.

Lemma lstrip_append_keeps c (s t : string) :
  Pathlib.lstrip c t <> EmptyString ->
  Pathlib.lstrip c (String.append s t) <> EmptyString.
Proof.
  intros Ht. induction s as [|a s IH]; [exact Ht|].
  rewrite PathlibFacts.append_cons. cbn [Pathlib.lstrip].
  destruct (Ascii.eqb a c); [exact IH|discriminate].
Qed.

(** X3.  For every path that has a name, the backup path is defined, is a
    different path in the same directory, is named by the stem of the
    input followed by [.backup.png], and so always carries the suffix
    [.png], whatever the suffix of the input. *)
Theorem backup_path_shape (p : Path) :
  Pathlib.name p <> EmptyString ->
  exists q,
    Pathlib.with_suffix p ".backup.png" = Some q /\
    q <> p /\
    removelast q = removelast p /\
    Pathlib.name q = String.append (Pathlib.stem p) ".backup.png" /\
    Pathlib.suffix q = ".png".
Proof.
  intros Hnm. eexists. split; [exact (PathlibFacts.with_suffix_backup_some p Hnm)|].
  split; [exact (PathlibFacts.with_suffix_backup_ne _ _
                   (PathlibFacts.with_suffix_backup_some p Hnm))|].
  split; [apply removelast_last|].
  unfold Pathlib.suffix, Pathlib.name. rewrite PathlibFacts.last_snoc.
  split; [reflexivity|].
  change ".backup.png" with (String.append ".backup" (String "." "png")).
  rewrite <- append_assoc.
  apply PathlibFacts.suffix_of_ext; [|reflexivity].
  apply lstrip_append_keeps. discriminate.
Qed.

Lemma backup_path_shape_witness :
  exists q,
    Pathlib.with_suffix photo_jpg ".backup.png" = Some q /\
    q <> photo_jpg /\
    removelast q = removelast photo_jpg /\
    Pathlib.name q = String.append (Pathlib.stem photo_jpg) ".backup.png" /\
    Pathlib.suffix q = ".png".
Proof.
  apply (backup_path_shape photo_jpg). discriminate.
Defined.

(** X4.  The downscaled dimension [int(n * 0.8)] of a dimension [n] below
    2^31 is never larger than [n], is smaller for every positive [n], and
    is zero exactly for [n = 0] and [n = 1]: a one-pixel side is scaled to
    nothing. *)
Theorem downscale_dimension_bounds (n : Z) :
  0 <= n < 2 ^ 31 ->
  0 <= Float.int_mul_scale n <= n /\
  (1 <= n -> Float.int_mul_scale n < n) /\
  (Float.int_mul_scale n = 0 <-> n <= 1).
Proof.
  intros Hn. rewrite (FloatFacts.int_mul_scale_floor n Hn).
  pose proof (Z.mul_div_le (4 * n) 5 ltac:(lia)) as Hlo.
  pose proof (Z.mul_succ_div_gt (4 * n) 5 ltac:(lia)) as Hhi.
  split; [lia|]. split; [lia|]. split; lia.
Qed.

Lemma downscale_dimension_bounds_witness :
  0 <= Float.int_mul_scale 1 <= 1 /\
  (1 <= 1 -> Float.int_mul_scale 1 < 1) /\
  (Float.int_mul_scale 1 = 0 <-> 1 <= 1).
Proof.
  apply (downscale_dimension_bounds 1). split; [discriminate|reflexivity].
Defined.

Lemma round53_nonneg n : 0 <= n -> 0 <= Float.round53 n.
Proof.
  intros Hn. unfold Float.round53, Float.round_pos.
  destruct (Z.ltb_spec n 0); [lia|].
  destruct (Z.ltb_spec n (2 ^ 53)); [exact Hn|].
  set (e := Z.log2 n - 52).
  assert (0 <= 2 ^ e) by (apply Z.pow_nonneg; lia).
  assert (0 <= n / 2 ^ e) by (apply Z.div_pos; [lia|]; apply Z.pow_pos_nonneg;
    [lia|]; unfold e; assert (53 <= Z.log2 n);
    [apply Z.log2_le_pow2; lia|lia]).
  destruct (_ || _); apply Z.mul_nonneg_nonneg; lia.
Qed.

(** With a budget that is not positive no file passes the size test. *)
Lemma lt_int_nonpositive `{PIL} b max_size_kb :
  max_size_kb <= 0 -> Float.lt_int (kb b) max_size_kb = false.
Proof.
  intros Hmax. unfold Float.lt_int, kb, Float.truediv_1024. cbn [Qnum Qden].
  apply Z.ltb_ge.
  pose proof (round53_nonneg (nbytes b) ltac:(unfold nbytes; lia)). lia.
Qed.

(** X5.  The budget is not checked: with [max_size_kb <= 0] no attempt can
    pass the size test, so every run that returns normally has gone through
    the whole ladder and the downscale, with the JPEG encodes 95, 85, 75,
    65, 55, 45 and 85 again. *)
Theorem nonpositive_budget_reaches_downscale `{PIL} (input : Path)
    (max_size_kb : Z) (w : World) (out : Path * Q) :
  max_size_kb <= 0 ->
  fst (compress_image input max_size_kb w) = Ok out ->
  jpeg_encodes (drop (length (trace w))
                  (trace (snd (compress_image input max_size_kb w))))
  = [95; 85; 75; 65; 55; 45; 85].
Proof.
  intros Hmax Hok.
  destruct (compress_image input max_size_kb w) as [r w'] eqn:Hrun.
  cbn [fst snd] in *. subst r.
  destruct (compress_image_attempts _ _ _ _ _ Hrun) as (_ & Hpost).
  destruct out as [out sz].
  destruct Hpost as (_ & b & _ & -> & [Hlt|Hfull]); [|exact Hfull].
  rewrite (lt_int_nonpositive b max_size_kb Hmax) in Hlt. discriminate.
Qed.

Lemma nonpositive_budget_reaches_downscale_witness :
  jpeg_encodes (drop (length (trace (world_with banner photo)))
                  (trace (snd (compress_image banner 0
                                 (world_with banner photo)))))
  = [95; 85; 75; 65; 55; 45; 85].
Proof.
  assert (Hok : fst (compress_image banner 0 (world_with banner photo))
                = Ok (banner, kb (jpeg_of 85 (flat_image "RGB" 16 16 x07))))
    by (vm_compute; reflexivity).
  apply (nonpositive_budget_reaches_downscale banner 0
           (world_with banner photo) _ ltac:(discriminate) Hok).
Defined.

(** X6.  In every run, failed or not, the JPEG encodes are made at the
    qualities 95, 85, 75, 65, 55, 45 in that order, without a gap or a
    repeat, up to some point; the one further encode, at 85, is made only
    after all six. *)
Theorem attempts_follow_ladder `{PIL} (input : Path) (max_size_kb : Z)
    (w : World) :
  (exists n,
      jpeg_encodes (drop (length (trace w))
                      (trace (snd (compress_image input max_size_kb w))))
      = take n [95; 85; 75; 65; 55; 45]) \/
  jpeg_encodes (drop (length (trace w))
                  (trace (snd (compress_image input max_size_kb w))))
  = [95; 85; 75; 65; 55; 45; 85].
Proof.
  destruct (compress_image input max_size_kb w) as [r w'] eqn:Hrun.
  cbn [snd].
  exact (proj1 (compress_image_attempts _ _ _ _ _ Hrun)).
Qed.

(** X7.  Every normal return of [compress_image] returns the input path
    and the kilobyte figure of the file it left there; that figure passed
    the test against the budget unless the run went through the downscale,
    whose result is returned untested. *)
Theorem normal_return_reports_file `{PIL} (input : Path) (max_size_kb : Z)
    (w : World) (out : Path) (sz : Q) :
  fst (compress_image input max_size_kb w) = Ok (out, sz) ->
  out = input /\
  exists b,
    files (snd (compress_image input max_size_kb w)) !! input = Some b /\
    sz = kb b /\
    (Float.lt_int sz max_size_kb = true \/
     jpeg_encodes (drop (length (trace w))
                     (trace (snd (compress_image input max_size_kb w))))
     = [95; 85; 75; 65; 55; 45; 85]).
Proof.
  intros Hok.
  destruct (compress_image input max_size_kb w) as [r w'] eqn:Hrun.
  cbn [fst snd] in *. subst r.
  exact (proj2 (compress_image_attempts _ _ _ _ _ Hrun)).
Qed.

Lemma normal_return_reports_file_witness :
  banner = banner /\
  exists b,
    files (snd (compress_image banner 1 (world_with banner photo))) !! banner
    = Some b /\
    kb (jpeg_of 75 photo) = kb b /\
    (Float.lt_int (kb (jpeg_of 75 photo)) 1 = true \/
     jpeg_encodes (drop (length (trace (world_with banner photo)))
                     (trace (snd (compress_image banner 1
                                    (world_with banner photo)))))
     = [95; 85; 75; 65; 55; 45; 85]).
Proof.
  assert (Hok : fst (compress_image banner 1 (world_with banner photo))
                = Ok (banner, kb (jpeg_of 75 photo)))
    by (vm_compute; reflexivity).
  exact (normal_return_reports_file banner 1 (world_with banner photo)
           banner (kb (jpeg_of 75 photo)) Hok).
Defined.

(** X8.  [main] never lets an exception of the pipeline escape: it always
    returns a status, the status is 0 or 1, and it is 0 exactly when
    [compress_image] returned normally. *)
Theorem main_never_raises `{PIL} (banner_path : Path) (w : World) :
  exists status,
    fst (main banner_path w) = Ok status /\
    (status = 0 \/ status = 1) /\
    (status = 0 <->
     exists out, fst (compress_image banner_path 300 w) = Ok out).
Proof.
  unfold main, bind at 1, Path_exists.
  destruct (files w !! banner_path) as [b|] eqn:Hf.
  - rewrite bool_decide_eq_true_2 by eauto. cbn [negb].
    unfold try_except, bind.
    destruct (compress_image banner_path 300 w) as [[out|e] w'].
    + exists 0. cbn. split; [reflexivity|]. split; [now left|].
      split; [eauto|reflexivity].
    + exists 1. cbn. split; [reflexivity|]. split; [now right|].
      split; [discriminate|]. intros [out Hout]. discriminate.
  - rewrite bool_decide_eq_false_2 by (intros [? ?]; discriminate).
    exists 1. cbn. split; [reflexivity|]. split; [now right|].
    split; [discriminate|]. intros [out Hout].
    unfold compress_image, bind, Image_open in Hout. rewrite Hf in Hout.
    discriminate.
Qed.

(** X9.  [main] does not roll back: when [compress_image] raises after it
    has moved the banner to the backup, [main] prints the traceback and
    exits with status 1, leaving the files as the failed run left them,
    with the original bytes at the backup path. *)
Theorem main_failure_keeps_backup `{PIL} (banner_path backup : Path)
    (w : World) (e : Exn) :
  fst (compress_image banner_path 300 w) = Raise e ->
  EvRename banner_path backup
    ∈ drop (length (trace w))
        (trace (snd (compress_image banner_path 300 w))) ->
  fst (main banner_path w) = Ok 1 /\
  files (snd (main banner_path w))
  = files (snd (compress_image banner_path 300 w)) /\
  trace (snd (main banner_path w))
  = trace (snd (compress_image banner_path 300 w)) ++ [EvTraceback e] /\
  is_Some (files w !! banner_path) /\
  files (snd (main banner_path w)) !! backup = files w !! banner_path.
Proof.
  intros Hr Hin.
  destruct (compress_image banner_path 300 w) as [r w'] eqn:Hrun.
  cbn [fst snd] in *. subst r.
  destruct (compress_image_early _ _ _ _ _ Hrun)
    as [(b0 & img0 & bk & Hf & Hd & Hb)
       |(e0 & _ & _ & [Ht|(b0 & Hf & Ht)])].
  - destruct (compress_image_shape _ _ _ _ _ _ _ _ Hf Hd Hb Hrun)
      as (evs & Ht & Hall & _ & Hk & _).
    rewrite Ht, drop_app_length in Hin.
    apply elem_of_cons in Hin as [Hin|Hin]; [discriminate|].
    apply elem_of_cons in Hin as [Hin|Hin].
    2: { rewrite Forall_forall in Hall. destruct (Hall _ Hin). }
    injection Hin as <-.
    assert (Hmain : main banner_path w
                    = (Ok 1, record (EvTraceback e) w')).
    { unfold main, bind at 1, Path_exists. rewrite Hf.
      rewrite bool_decide_eq_true_2 by eauto. cbn [negb].
      unfold try_except, bind at 1. rewrite Hrun. reflexivity. }
    rewrite Hmain, Hf. cbn [fst snd files trace record].
    repeat (split; [reflexivity|]). split; [eauto|exact Hk].
  - rewrite Ht, drop_all in Hin. now apply elem_of_nil in Hin.
  - rewrite Ht, drop_app_length in Hin.
    apply list_elem_of_singleton in Hin. discriminate.
Qed.

Lemma main_failure_keeps_backup_witness :
  fst (@main no_encoder banner (world_with banner photo)) = Ok 1 /\
  files (snd (@main no_encoder banner (world_with banner photo)))
    !! banner_backup
  = Some (png_of photo).
Proof.
  assert (Hr : fst (@compress_image no_encoder banner 300
                      (world_with banner photo))
               = Raise OSError) by (vm_compute; reflexivity).
  assert (Hin : EvRename banner banner_backup
                ∈ drop (length (trace (world_with banner photo)))
                    (trace (snd (@compress_image no_encoder banner 300
                                   (world_with banner photo))))).
  { apply list_elem_of_In. vm_compute. right. left. reflexivity. }
  pose proof (@main_failure_keeps_backup no_encoder banner banner_backup
                (world_with banner photo) OSError Hr Hin) as Hmain.
  destruct Hmain as (Hst & _ & _ & _ & Hbk).
  split; [exact Hst|]. rewrite Hbk. vm_compute. reflexivity.
Defined.

(** X10.  A run that renames nothing changes nothing: if the trace of a run
    shows no rename, the run has raised and every file is as it was, the
    input included. *)
Theorem no_rename_no_change `{PIL} (input : Path) (max_size_kb : Z)
    (w : World) :
  (forall src dst,
      EvRename src dst
        ∉ drop (length (trace w))
            (trace (snd (compress_image input max_size_kb w)))) ->
  files (snd (compress_image input max_size_kb w)) = files w /\
  exists e, fst (compress_image input max_size_kb w) = Raise e.
Proof.
  intros Hno.
  destruct (compress_image input max_size_kb w) as [r w'] eqn:Hrun.
  cbn [fst snd] in *.
  destruct (compress_image_early _ _ _ _ _ Hrun)
    as [(b0 & img0 & bk & Hf & Hd & Hb)|(e0 & -> & -> & _)];
    [|split; [reflexivity|eauto]].
  destruct (compress_image_shape _ _ _ _ _ _ _ _ Hf Hd Hb Hrun)
    as (evs & Ht & _).
  exfalso. apply (Hno input bk). rewrite Ht, drop_app_length.
  apply elem_of_cons. right. apply elem_of_cons. now left.
Qed.

Lemma no_rename_no_change_witness :
  files (snd (compress_image banner 1 garbage_world)) = files garbage_world /\
  exists e, fst (compress_image banner 1 garbage_world) = Raise e.
Proof.
  apply (no_rename_no_change banner 1 garbage_world).
  intros src dst Hin. vm_compute in Hin. now apply elem_of_nil in Hin.
Defined.

(** X11.  A normal return leaves no file behind: the paths that hold a
    file afterwards are the paths that held one before, less the backup
    path (where a file left by an earlier run is removed as well). *)
Theorem normal_return_leaves_no_extra_file `{PIL} (input backup : Path)
    (max_size_kb : Z) (w : World) (out : Path * Q) :
  fst (compress_image input max_size_kb w) = Ok out ->
  Pathlib.with_suffix input ".backup.png" = Some backup ->
  dom (files (snd (compress_image input max_size_kb w)))
  = dom (files w) ∖ {[ backup ]}.
Proof.
  intros Hok Hb.
  destruct (compress_image input max_size_kb w) as [r w'] eqn:Hrun.
  cbn [fst snd] in *. subst r.
  pose proof (PathlibFacts.with_suffix_backup_ne _ _ Hb) as Hne.
  destruct (compress_image_early _ _ _ _ _ Hrun)
    as [(b0 & img0 & bk & Hf & Hd & Hb')|(e0 & He & _)]; [|discriminate].
  rewrite Hb in Hb'. injection Hb' as <-.
  destruct (compress_image_shape _ _ _ _ _ _ _ _ Hf Hd Hb Hrun)
    as (evs & _ & _ & Hfr & Hpost).
  destruct out as [out sz]. destruct Hpost as (_ & Hgone & _).
  destruct (compress_image_attempts _ _ _ _ _ Hrun)
    as (_ & _ & b & Hin & _).
  apply set_eq. intros p.
  rewrite elem_of_difference, !elem_of_dom, elem_of_singleton.
  destruct (decide (p = backup)) as [->|Hpb].
  - rewrite Hgone. split; [intros [? ?]; discriminate|intros [_ ?]; done].
  - destruct (decide (p = input)) as [->|Hpi].
    + rewrite Hin, Hf. split; [intros _; split; [eauto|done]|eauto].
    + rewrite (Hfr p Hpi Hpb). split; [intros ?; split; done|intros [? _]; done].
Qed.

Lemma normal_return_leaves_no_extra_file_witness :
  dom (files (snd (compress_image banner 1
                     (mkWorld (<[banner_backup := [x2a]]>
                                 (files (world_with banner photo))) []))))
  = dom (<[banner_backup := [x2a]]> (files (world_with banner photo)))
    ∖ {[ banner_backup ]}.
Proof.
  assert (Hok : fst (compress_image banner 1
                       (mkWorld (<[banner_backup := [x2a]]>
                                   (files (world_with banner photo))) []))
                = Ok (banner, kb (jpeg_of 75 photo)))
    by (vm_compute; reflexivity).
  assert (Hb : Pathlib.with_suffix banner ".backup.png" = Some banner_backup)
    by reflexivity.
  exact (normal_return_leaves_no_extra_file banner banner_backup 1
           (mkWorld (<[banner_backup := [x2a]]>
                       (files (world_with banner photo))) [])
           (banner, kb (jpeg_of 75 photo)) Hok Hb).
Defined.

(** ** Budgets compared *)

Section Budgets.
Context `{PIL}.
Variables (input backup : Path) (img : Image).
Hypothesis Hne : backup <> input.

Lemma lt_int_mono x m m' :
  m <= m' -> Float.lt_int x m = true -> Float.lt_int x m' = true.
Proof.
  unfold Float.lt_int. rewrite !Z.ltb_lt. intros Hm Hlt.
  assert (m * Zpos (Qden x) <= m' * Zpos (Qden x)) by nia. lia.
Qed.

Lemma jpeg_encodes_attempts p l : jpeg_encodes (attempts img p l) = l.
Proof.
  induction l as [|q l IH]; [reflexivity|].
  change (jpeg_encodes (attempts img p (q :: l)))
    with (q :: jpeg_encodes (attempts img p l)).
  now rewrite IH.
Qed.

(** What a loop that did not raise tells about the encoder. *)
Lemma loop_facts m qs w o w' :
  quality_loop img input backup m qs w = (Ok o, w') ->
  match o with
  | Some _ =>
      exists pre q post b,
        qs = pre ++ q :: post /\ Forall (rejected img m) pre /\
        encode (JPEG q true) img = Written b /\
        Float.lt_int (kb b) m = true
  | None => Forall (rejected img m) qs
  end.
Proof.
  revert w. induction qs as [|q qs IH]; intros w Hrun;
    cbn [quality_loop] in Hrun.
  - injection Hrun as <- <-. constructor.
  - apply bind_inv in Hrun as [([] & w1 & Hsave & Hrun)|(e & _ & He)];
      [|discriminate].
    apply save_ok_inv in Hsave as (b & Hb & Hf1 & _).
    apply bind_inv in Hrun as [(sz & w2 & Hsz & Hrun)|(e & _ & He)];
      [|discriminate].
    apply size_ok_inv in Hsz as (-> & b' & Hb' & ->).
    rewrite Hf1, lookup_insert_eq in Hb'. injection Hb' as <-.
    destruct (Float.lt_int (kb b) m) eqn:Hlt.
    + apply bind_inv in Hrun as [([] & w3 & _ & Hrun)|(e & _ & He)];
        [|discriminate].
      injection Hrun as <- <-. exists [], q, qs, b. now repeat split.
    + specialize (IH w1 Hrun).
      assert (Hq : rejected img m q) by (exists b; now split).
      destruct o as [res|].
      * destruct IH as (pre & q' & post & b' & -> & Hpre & Hb' & Hlt').
        exists (q :: pre), q', post, b'. repeat split; try assumption.
        now constructor.
      * now constructor.
Qed.

(** The first quality whose file passes the test, among qualities that
    are all written. *)
Lemma ladder_split m qs :
  Forall (fun q => exists b, encode (JPEG q true) img = Written b) qs ->
  Forall (rejected img m) qs \/
  exists pre q post b,
    qs = pre ++ q :: post /\ Forall (rejected img m) pre /\
    encode (JPEG q true) img = Written b /\
    Float.lt_int (kb b) m = true.
Proof.
  induction 1 as [|q qs (b & Hb) _ IH]; [left; constructor|].
  destruct (Float.lt_int (kb b) m) eqn:Hlt.
  - right. exists [], q, qs, b. now repeat split.
  - assert (Hq : rejected img m q) by (exists b; now split).
    destruct IH as [Hall|(pre & q' & post & b' & -> & Hpre & Hb' & Hlt')].
    + left. now constructor.
    + right. exists (q :: pre), q', post, b'. repeat split; try assumption.
      now constructor.
Qed.

Lemma rejected_written m qs :
  Forall (rejected img m) qs ->
  Forall (fun q => exists b, encode (JPEG q true) img = Written b) qs.
Proof.
  intros Hall. eapply Forall_impl; [exact Hall|].
  intros q (b & Hb & _). now exists b.
Qed.

End Budgets.

Section BudgetRuns.
Context `{PIL}.
Variables (input backup : Path) (b0 : list byte) (img0 : Image).
Hypothesis Hne : backup <> input.
Hypothesis Hdec : decode b0 = Some img0.

(** What a normal return of the stages tells about the encoder: the stage
    that accepted, and the attempts rejected before it. *)
Lemma stages_ok_facts m w res w' :
  files w !! backup = Some b0 ->
  stages (normalize img0) input backup m w = (Ok res, w') ->
  exists bpng,
    encode (PNG true 9) (normalize img0) = Written bpng /\
    (Float.lt_int (kb bpng) m = true \/
     (Float.lt_int (kb bpng) m = false /\
      exists pre q post b,
        qualities = pre ++ q :: post /\
        Forall (rejected (normalize img0) m) pre /\
        encode (JPEG q true) (normalize img0) = Written b /\
        Float.lt_int (kb b) m = true) \/
     (Float.lt_int (kb bpng) m = false /\
      Forall (rejected (normalize img0) m) qualities /\
      exists small bfinal,
        downscaled (normalize img0) = inr small /\
        encode (JPEG 85 true) small = Written bfinal)).
Proof.
  intros Hbk Hrun. unfold stages in Hrun.
  apply bind_inv in Hrun as [([] & w1 & Hsave & Hrun)|(e & _ & He)];
    [|discriminate].
  apply save_ok_inv in Hsave as (bpng & Hpng & Hf1 & _).
  exists bpng. split; [exact Hpng|].
  apply bind_inv in Hrun as [(sz & w2 & Hsz & Hrun)|(e & _ & He)];
    [|discriminate].
  apply size_ok_inv in Hsz as (-> & b' & Hb' & ->).
  rewrite Hf1, lookup_insert_eq in Hb'. injection Hb' as <-.
  destruct (Float.lt_int (kb bpng) m) eqn:Hlt; [now left|right].
  apply bind_inv in Hrun as [(o & w2 & Hloop & Hrun)|(e & _ & He)];
    [|discriminate].
  pose proof (loop_facts _ _ _ _ _ _ _ _ Hloop) as Hfacts.
  destruct o as [out|]; [left; now split|right].
  split; [reflexivity|]. split; [exact Hfacts|].
  assert (Hbk1 : files w1 !! backup = Some b0)
    by (rewrite Hf1; now rewrite lookup_insert_ne).
  destruct (loop_shape input backup b0 img0 m Hne _ _ _ _ Hbk1 Hloop)
    as (evs & _ & Hbk2 & _).
  unfold downscale_stage in Hrun.
  rewrite (bind_run _ _ _ _ _ (open_run _ _ _ _ Hbk2 Hdec)) in Hrun.
  cbn beta iota in Hrun. unfold lift at 1 in Hrun.
  rewrite flatten_normalize in Hrun. unfold bind at 1 in Hrun.
  unfold downscaled.
  destruct (Image_resize (normalize img0) _ LANCZOS) as [e|small];
    [discriminate|].
  apply bind_inv in Hrun as [([] & w3 & Hsave & _)|(e & _ & He)];
    [|discriminate].
  apply save_ok_inv in Hsave as (bfinal & Hfinal & _).
  now exists small, bfinal.
Qed.

End BudgetRuns.

(** The JPEG encodes of an accepting run, read off its trace. *)
Lemma accepted_jpeg_encodes `{PIL} w input backup b0 img b l tail run :
  accepted w input backup b
    (EvOpen input b0 :: EvRename input backup
     :: EvSave input (PNG true 9) img :: attempts img input l ++ tail) run ->
  (exists out, fst run = Ok out) /\
  jpeg_encodes (drop (length (trace w)) (trace (snd run)))
  = l ++ jpeg_encodes tail.
Proof.
  intros (Hr & Ht & _). split; [eauto|].
  rewrite Ht, drop_app_length.
  change (jpeg_encodes (EvOpen input b0 :: EvRename input backup
                        :: EvSave input (PNG true 9) img
                        :: attempts img input l ++ tail))
    with (jpeg_encodes (attempts img input l ++ tail)).
  now rewrite jpeg_encodes_app, jpeg_encodes_attempts.
Qed.

(** X12.  A larger budget never costs more: if the run with budget [m]
    returns normally, the run on the same files with a budget [m' >= m]
    returns normally too, makes no more JPEG encodes, and makes them at the
    same qualities, in the same order, as the first of the run with [m]. *)
Theorem larger_budget_no_worse `{PIL} (input : Path) (m m' : Z) (w : World)
    (out : Path * Q) :
  m <= m' ->
  fst (compress_image input m w) = Ok out ->
  (exists out', fst (compress_image input m' w) = Ok out') /\
  exists n,
    jpeg_encodes (drop (length (trace w))
                    (trace (snd (compress_image input m' w))))
    = take n (jpeg_encodes (drop (length (trace w))
                              (trace (snd (compress_image input m w))))).
Proof.
  intros Hm Hok.
  destruct (compress_image input m w) as [r w'] eqn:Hrun.
  cbn [fst snd] in *. subst r.
  destruct (compress_image_early _ _ _ _ _ Hrun)
    as [(b0 & img0 & bk & Hf & Hd & Hb)|(e0 & He & _)]; [|discriminate].
  pose proof (PathlibFacts.with_suffix_backup_ne _ _ Hb) as Hne.
  set (w1 := mkWorld (<[bk := b0]> (delete input (files w)))
                     (trace w ++ [EvOpen input b0; EvRename input bk])).
  assert (Hbk : files w1 !! bk = Some b0) by apply lookup_insert_eq.
  pose proof Hrun as Hst.
  rewrite (compress_image_stages _ _ _ _ _ _ Hf Hd Hb) in Hst.
  apply (stages_ok_facts input bk b0 img0 Hne Hd) in Hst; [|exact Hbk].
  destruct Hst as (bpng & Hpng & Hcase).
  set (img1 := normalize img0) in *.
  assert (Hjm : forall b l tail,
             accepted w input bk b
               (EvOpen input b0 :: EvRename input bk
                :: EvSave input (PNG true 9) img1
                :: attempts img1 input l ++ tail)
               (compress_image input m w) ->
             jpeg_encodes (drop (length (trace w)) (trace w'))
             = l ++ jpeg_encodes tail).
  { intros b l tail Hacc. apply accepted_jpeg_encodes in Hacc as (_ & Hj).
    now rewrite Hrun in Hj. }
  (* the run with the larger budget, by the stage that accepts *)
  assert (Hlossless : Float.lt_int (kb bpng) m' = true ->
            (exists out', fst (compress_image input m' w) = Ok out') /\
            jpeg_encodes (drop (length (trace w))
                            (trace (snd (compress_image input m' w)))) = []).
  { intros Hlt'.
    pose proof (accepted_whole w input bk b0 img0 m' Hf Hd Hb _ _
                  (stages_lossless input bk img1 m' Hne bpng b0 w1
                     Hpng Hlt' Hbk)) as Hacc.
    apply (accepted_jpeg_encodes w input bk b0 img1 bpng [] [EvUnlink bk])
      in Hacc. exact Hacc. }
  assert (Hladder : Float.lt_int (kb bpng) m' = false ->
            forall pre q post b,
              qualities = pre ++ q :: post ->
              Forall (rejected img1 m') pre ->
              encode (JPEG q true) img1 = Written b ->
              Float.lt_int (kb b) m' = true ->
              (exists out', fst (compress_image input m' w) = Ok out') /\
              jpeg_encodes (drop (length (trace w))
                              (trace (snd (compress_image input m' w))))
              = pre ++ [q]).
  { intros Hlt' pre q post b Hqs Hpre Hb' Hltb.
    pose proof (accepted_whole w input bk b0 img0 m' Hf Hd Hb _ _
                  (stages_ladder input bk img1 m' Hne bpng pre q post b b0 w1
                     Hpng Hlt' Hqs Hpre Hb' Hltb Hbk)) as Hacc.
    apply (accepted_jpeg_encodes w input bk b0 img1 b (pre ++ [q])
             [EvUnlink bk]) in Hacc.
    now rewrite app_nil_r in Hacc. }
  destruct (Float.lt_int (kb bpng) m') eqn:Hlt'.
  { destruct (Hlossless eq_refl) as (Hok' & ->).
    split; [exact Hok'|]. now exists 0%nat. }
  specialize (Hladder eq_refl).
  destruct Hcase as [Hlt|[(Hlt & pre & q & post & b & Hqs & Hpre & Hq & Hltq)
                         |(Hlt & Hall & small & bfinal & Hsmall & Hfinal)]].
  - rewrite (lt_int_mono _ _ _ Hm Hlt) in Hlt'. discriminate.
  - (* the run with [m] accepted at [q] *)
    rewrite (Hjm b (pre ++ [q]) [EvUnlink bk]
               (accepted_whole w input bk b0 img0 m Hf Hd Hb _ _
                  (stages_ladder input bk img1 m Hne bpng pre q post b b0 w1
                     Hpng Hlt Hqs Hpre Hq Hltq Hbk))).
    rewrite app_nil_r.
    assert (Hwr : Forall (fun q0 => exists b1,
                            encode (JPEG q0 true) img1 = Written b1)
                    (pre ++ [q])).
    { apply Forall_app. split; [exact (rejected_written _ _ _ Hpre)|].
      constructor; [now exists b|constructor]. }
    destruct (ladder_split img1 m' _ Hwr)
      as [Hrej|(pre' & q' & post' & b' & Hsplit & Hpre' & Hb' & Hlt'')].
    + apply Forall_app in Hrej as (_ & Hrej).
      apply Forall_cons in Hrej as ((b1 & Hb1 & Hf1) & _).
      rewrite Hq in Hb1. injection Hb1 as <-.
      rewrite (lt_int_mono _ _ _ Hm Hltq) in Hf1. discriminate.
    + assert (Hqs' : qualities = pre' ++ q' :: (post' ++ post)).
      { rewrite Hqs. change (pre ++ q :: post) with (pre ++ [q] ++ post).
        rewrite app_assoc, Hsplit, <- app_assoc. reflexivity. }
      destruct (Hladder pre' q' _ b' Hqs' Hpre' Hb' Hlt'') as (Hok' & ->).
      split; [exact Hok'|]. exists (length (pre' ++ [q'])).
      rewrite Hsplit. change (pre' ++ q' :: post')
        with (pre' ++ [q'] ++ post').
      now rewrite app_assoc, take_app_length.
  - (* the run with [m] went through the downscale *)
    rewrite (Hjm bfinal qualities
               [EvOpen bk b0; EvSave input (JPEG 85 true) small; EvUnlink bk]
               (accepted_whole w input bk b0 img0 m Hf Hd Hb _ _
                  (stages_downscale input bk img1 m Hne bpng b0 img0 small
                     bfinal w1 Hpng Hlt Hall Hbk Hd eq_refl Hsmall Hfinal))).
    destruct (ladder_split img1 m' _ (rejected_written _ _ _ Hall))
      as [Hrej|(pre' & q' & post' & b' & Hsplit & Hpre' & Hb' & Hlt'')].
    + pose proof (accepted_whole w input bk b0 img0 m' Hf Hd Hb _ _
                    (stages_downscale input bk img1 m' Hne bpng b0 img0 small
                       bfinal w1 Hpng Hlt' Hrej Hbk Hd eq_refl Hsmall Hfinal))
        as Hacc.
      apply (accepted_jpeg_encodes w input bk b0 img1 bfinal qualities)
        in Hacc as (Hok' & ->).
      split; [exact Hok'|]. exists 7%nat. reflexivity.
    + destruct (Hladder pre' q' post' b' Hsplit Hpre' Hb' Hlt'')
        as (Hok' & ->).
      split; [exact Hok'|]. exists (length (pre' ++ [q'])).
      rewrite Hsplit. change (pre' ++ q' :: post')
        with (pre' ++ [q'] ++ post').
      rewrite <- !app_assoc, app_assoc. now rewrite take_app_length.
Qed.

Lemma larger_budget_no_worse_witness :
  (exists out', fst (compress_image banner 2 (world_with banner poster))
                = Ok out') /\
  exists n,
    jpeg_encodes (drop (length (trace (world_with banner poster)))
                    (trace (snd (compress_image banner 2
                                   (world_with banner poster)))))
    = take n (jpeg_encodes
                (drop (length (trace (world_with banner poster)))
                   (trace (snd (compress_image banner 1
                                  (world_with banner poster)))))).
Proof.
  assert (Hok : fst (compress_image banner 1 (world_with banner poster))
                = Ok (banner, kb (jpeg_of 85 poster_small)))
    by (vm_compute; reflexivity).
  exact (larger_budget_no_worse banner 1 2 (world_with banner poster) _
           ltac:(discriminate) Hok).
Defined.

(** X13.  When the lossless encode raises, nothing is put back: the run
    raises with no file at the input path (the file [save] had created is
    removed again) and the original bytes at the backup path; a later call
    of [main] on that path then finds no banner and exits with status 1
    without touching anything. *)
Theorem failed_lossless_encode_loses_banner `{PIL} (w : World)
    (input backup : Path) (b0 : list byte) (img0 : Image) (max_size_kb : Z)
    (e : Exn) (partial : list byte) :
  files w !! input = Some b0 ->
  decode b0 = Some img0 ->
  Pathlib.with_suffix input ".backup.png" = Some backup ->
  encode (PNG true 9) (normalize img0) = Failed e partial ->
  fst (compress_image input max_size_kb w) = Raise e /\
  files (snd (compress_image input max_size_kb w)) !! input = None /\
  files (snd (compress_image input max_size_kb w)) !! backup = Some b0 /\
  main input (snd (compress_image input max_size_kb w))
  = (Ok 1, snd (compress_image input max_size_kb w)).
Proof.
  intros Hf Hd Hb Hfail.
  pose proof (PathlibFacts.with_suffix_backup_ne _ _ Hb) as Hne.
  assert (Hrun : compress_image input max_size_kb w
                 = (Raise e,
                    mkWorld (<[backup := b0]> (delete input (files w)))
                      (trace w ++ [EvOpen input b0; EvRename input backup;
                                   EvSave input (PNG true 9)
                                     (normalize img0)]))).
  { rewrite (compress_image_stages _ _ _ _ _ _ Hf Hd Hb).
    unfold stages, bind at 1, Image_save. rewrite Hfail. cbn [files].
    rewrite lookup_insert_ne by exact Hne. rewrite lookup_delete_eq.
    unfold record. cbn [files trace]. now rewrite <- app_assoc. }
  rewrite Hrun. cbn [fst snd files].
  assert (Hgone : (<[backup := b0]> (delete input (files w))) !! input = None).
  { rewrite lookup_insert_ne by exact Hne. apply lookup_delete_eq. }
  split; [reflexivity|]. split; [exact Hgone|].
  split; [apply lookup_insert_eq|].
  unfold main, bind at 1, Path_exists. cbn [files]. rewrite Hgone.
  rewrite bool_decide_eq_false_2 by (intros [? ?]; discriminate).
  reflexivity.
Qed.

Lemma failed_lossless_encode_loses_banner_witness :
  fst (@compress_image no_encoder banner 300 (world_with banner photo))
  = Raise OSError /\
  files (snd (@compress_image no_encoder banner 300
                (world_with banner photo))) !! banner = None /\
  files (snd (@compress_image no_encoder banner 300
                (world_with banner photo))) !! banner_backup
  = Some (png_of photo) /\
  @main no_encoder banner
    (snd (@compress_image no_encoder banner 300 (world_with banner photo)))
  = (Ok 1, snd (@compress_image no_encoder banner 300
                  (world_with banner photo))).
Proof.
  apply (@failed_lossless_encode_loses_banner no_encoder
           (world_with banner photo) banner banner_backup (png_of photo)
           photo 300 OSError []).
  - reflexivity.
  - reflexivity.
  - reflexivity.
  - reflexivity.
Defined.
